(** * MSSQL tools service: identifier validation and tool handlers

    A shallow embedding of [src/mcp/server/server.py]: the table-name
    validator ([validate_table_name]), the connection helper
    ([get_connection]) and the five tool handlers ([list_tables],
    [preview_table], [run_query], [describe_table], [get_table_count]).

    Python strings are modelled as [string]; one [ascii] stands for one code
    point below 256.  The database driver (pyodbc) is outside the
    repository: it is a parameter of the handlers, a record of operations on
    an abstract world state, each of which may raise. *)

From Stdlib Require Import List String Ascii Bool Arith ZArith Lia.
From Stdlib Require Import Numbers.DecimalString.
Import ListNotations.
Open Scope string_scope.

(** ** Exceptions and results *)

(** A raised [Exception]: its class name and [str(e)]. *)
Record exn : Type := mkExn { exc_class : string; exc_str : string }.

Inductive result (A : Type) : Type :=
| Ok (a : A)
| Raise (e : exn).
Arguments Ok {A} a.
Arguments Raise {A} e.

(** Sequencing of steps that may raise. *)
Definition and_then {A B : Type} (r : result A) (f : A -> result B) : result B :=
  match r with
  | Ok a => f a
  | Raise e => Raise e
  end.

Notation "'let?' x := r 'in' k" := (and_then r (fun x => k))
  (at level 10, x name, r at level 100, k at level 200).

(** ** String operations of the Python runtime used by the source *)

Module Str.

Definition newline : ascii := "010"%char.

(** [s.replace(old, new)] for a one-character [old]. *)
Fixpoint replace (old : ascii) (new : string) (s : string) : string :=
  match s with
  | EmptyString => EmptyString
  | String a t =>
      if Ascii.eqb a old then new ++ replace old new t
      else String a (replace old new t)
  end.

(** Puts a character in front of the first piece of a split. *)
Definition cons_head (a : ascii) (l : list string) : list string :=
  match l with
  | [] => [String a EmptyString]
  | h :: r => String a h :: r
  end.

(** [s.split(sep)] for a one-character [sep]; the result is never empty. *)
Fixpoint split (sep : ascii) (s : string) : list string :=
  match s with
  | EmptyString => [EmptyString]
  | String a t =>
      if Ascii.eqb a sep then EmptyString :: split sep t
      else cons_head a (split sep t)
  end.

(** [l[-1]] on a list known to be non-empty. *)
Definition last_item (l : list string) : string := last l EmptyString.

(** [s.split(sep)] for a separator of any positive length: [skip] counts
    the characters of a separator occurrence still to be passed over. *)
Fixpoint split_str_from (sep : string) (skip : nat) (s : string) : list string :=
  match s with
  | EmptyString => [EmptyString]
  | String a t =>
      match skip with
      | S k => split_str_from sep k t
      | O =>
          if prefix sep s
          then EmptyString :: split_str_from sep (String.length sep - 1) t
          else cons_head a (split_str_from sep 0 t)
      end
  end.

Definition split_str (sep : string) (s : string) : list string :=
  split_str_from sep 0 s.

Fixpoint all_chars (p : ascii -> bool) (s : string) : bool :=
  match s with
  | EmptyString => true
  | String a t => p a && all_chars p t
  end.

Fixpoint has_char (c : ascii) (s : string) : bool :=
  match s with
  | EmptyString => false
  | String a t => Ascii.eqb a c || has_char c t
  end.

(** [needle in s]. *)
Fixpoint contains (needle : string) (s : string) : bool :=
  prefix needle s ||
  match s with
  | EmptyString => false
  | String _ t => contains needle t
  end.

End Str.

(** ** The fragment of Python's [re] that the validator uses *)

Module Re.

(** An item of a bracketed character set: [lo-hi] or one character. *)
Inductive set_item : Type :=
| Range (lo hi : ascii)
| Single (c : ascii).

Definition in_item (a : ascii) (i : set_item) : bool :=
  match i with
  | Range lo hi =>
      Nat.leb (nat_of_ascii lo) (nat_of_ascii a)
      && Nat.leb (nat_of_ascii a) (nat_of_ascii hi)
  | Single c => Ascii.eqb a c
  end.

Definition in_set (cs : list set_item) (a : ascii) : bool :=
  existsb (in_item a) cs.

Inductive regex : Type :=
| Bol                            (* ^ *)
| Eol                            (* $ , without re.MULTILINE *)
| Eos                            (* \Z : only the very end of the string *)
| Chr (c : ascii)                (* a literal or escaped character *)
| PlusSet (cs : list set_item)   (* [...]+ *)
| Opt (r : regex)                (* (...)? *)
| Seq (r1 r2 : regex).

(** One or more characters of the set, then the continuation. *)
Fixpoint plus_set (cs : list set_item) (s : string) (k : string -> bool) : bool :=
  match s with
  | EmptyString => false
  | String a t => in_set cs a && (plus_set cs t k || k t)
  end.

(** Python's [$] matches at the end of the string and also just before a
    newline that is the last character of the string. *)
Definition at_dollar (s : string) : bool :=
  match s with
  | EmptyString => true
  | String a EmptyString => Ascii.eqb a Str.newline
  | _ => false
  end.

(** Backtracking matcher in continuation style: [n] is the length of the
    whole subject, [s] what is left of it. *)
Fixpoint run (n : nat) (r : regex) (s : string) (k : string -> bool) : bool :=
  match r with
  | Bol => Nat.eqb (String.length s) n && k s
  | Eol => at_dollar s && k s
  | Eos => Nat.eqb (String.length s) 0 && k s
  | Chr c =>
      match s with
      | String a t => Ascii.eqb a c && k t
      | EmptyString => false
      end
  | PlusSet cs => plus_set cs s k
  | Opt r1 => run n r1 s k || k s
  | Seq r1 r2 => run n r1 s (fun s' => run n r2 s' k)
  end.

(** [re.match(r, s)] is not [None]. *)
Definition re_match (r : regex) (s : string) : bool :=
  run (String.length s) r s (fun _ => true).

End Re.

(** ** validate_table_name *)

(** [[a-zA-Z0-9_]] *)
Definition word_set : list Re.set_item :=
  [Re.Range "a" "z"; Re.Range "A" "Z"; Re.Range "0" "9"; Re.Single "_"].

Definition word_char (a : ascii) : bool := Re.in_set word_set a.

(** [r'^[a-zA-Z0-9_]+(\.[a-zA-Z0-9_]+)?$'] *)
Definition table_name_re : Re.regex :=
  Re.Seq Re.Bol
    (Re.Seq (Re.PlusSet word_set)
       (Re.Seq (Re.Opt (Re.Seq (Re.Chr ".") (Re.PlusSet word_set)))
          Re.Eol)).

Definition validate_table_name (name : string) : result string :=
  if negb (Re.re_match table_name_re name)
  then Raise (mkExn "ValueError" ("Invalid table name: " ++ name))
  else Ok ("[" ++ Str.replace "." "].[" name ++ "]").

(** The pattern of the specification: the same expression with [^] and [$]
    read as the very start and the very end of the string. *)
Definition table_name_re_anchored : Re.regex :=
  Re.Seq Re.Bol
    (Re.Seq (Re.PlusSet word_set)
       (Re.Seq (Re.Opt (Re.Seq (Re.Chr ".") (Re.PlusSet word_set)))
          Re.Eos)).

Definition spec_pattern (s : string) : bool :=
  Re.re_match table_name_re_anchored s.

(** Splitting a quoted identifier on its quoting boundaries: the outer [[]
    and []] are removed and the rest is cut at every [].[]. *)
Fixpoint chop_close (s : string) : option string :=
  match s with
  | EmptyString => None
  | String a EmptyString => if Ascii.eqb a "]" then Some EmptyString else None
  | String a t => option_map (String a) (chop_close t)
  end.

Definition split_quoted (q : string) : option (list string) :=
  match q with
  | String "[" t => option_map (Str.split_str "].[") (chop_close t)
  | _ => None
  end.

(** The strings of the anchored pattern: one segment, or two around a dot. *)
Definition is_segment (w : string) : Prop :=
  w <> "" /\ Str.all_chars word_char w = true.

(** Puts a string in front of the first piece of a split. *)
Definition prepend (w : string) (l : list string) : list string :=
  match l with
  | [] => [w]
  | h :: r => (w ++ h) :: r
  end.

(** ** Values held in result rows *)

(** What a result row may hold: SQL NULL, a bit, an integer or text. *)
Inductive value : Type :=
| VNone
| VBool (b : bool)
| VInt (z : Z)
| VStr (s : string).

Module Py.

(** [bool(v)] *)
Definition truthy (v : value) : bool :=
  match v with
  | VNone => false
  | VBool b => b
  | VInt z => negb (Z.eqb z 0)
  | VStr s => negb (String.eqb s "")
  end.

(** [v is None] *)
Definition is_none (v : value) : bool :=
  match v with
  | VNone => true
  | _ => false
  end.

(** [str(v)] *)
Definition str (v : value) : string :=
  match v with
  | VNone => "None"
  | VBool true => "True"
  | VBool false => "False"
  | VInt z => NilZero.string_of_int (Z.to_int z)
  | VStr s => s
  end.

(** The white space that [int] strips from both ends of a string, below
    code point 256: the ASCII white space and the two Unicode spaces. *)
Definition is_space (a : ascii) : bool :=
  let n := nat_of_ascii a in
  (Nat.leb 9 n && Nat.leb n 13) || Nat.eqb n 32
  || Nat.eqb n 133 || Nat.eqb n 160.

Fixpoint lstrip (s : string) : string :=
  match s with
  | EmptyString => EmptyString
  | String a t => if is_space a then lstrip t else s
  end.

Fixpoint rstrip (s : string) : string :=
  match s with
  | EmptyString => EmptyString
  | String a t =>
      let t' := rstrip t in
      if String.eqb t' "" && is_space a then EmptyString else String a t'
  end.

Definition digit_of (a : ascii) : option Z :=
  let n := nat_of_ascii a in
  if Nat.leb 48 n && Nat.leb n 57 then Some (Z.of_nat (n - 48)) else None.

(** What reading a decimal literal gives: its value, a syntax error, or too
    many digits for the interpreter's limit. *)
Inductive literal : Type :=
| Value (z : Z)
| Invalid
| TooLong (digits : N).

Definition max_str_digits : N := 4300.

(** Decimal digits, single underscores allowed between two digits.  The
    digits are counted along the leading run of digits and underscores, and
    the limit is checked when that run ends, before what follows it is
    looked at. *)
Fixpoint digits (acc : Z) (count : N) (after_digit : bool) (s : string) : literal :=
  match s with
  | EmptyString =>
      if after_digit
      then if N.ltb max_str_digits count then TooLong count else Value acc
      else Invalid
  | String a t =>
      match digit_of a with
      | Some d => digits (10 * acc + d) (N.succ count) true t
      | None =>
          if Ascii.eqb a "_"
          then if after_digit then digits acc count false t else Invalid
          else if after_digit && N.ltb max_str_digits count
               then TooLong count
               else Invalid
      end
  end.

Definition negated (l : literal) : literal :=
  match l with
  | Value z => Value (- z)
  | other => other
  end.

Definition int_of_string (s : string) : literal :=
  match rstrip (lstrip s) with
  | String "-" t => negated (digits 0 0 false t)
  | String "+" t => digits 0 0 false t
  | t => digits 0 0 false t
  end.

Definition double_quote : ascii := "034"%char.

Definition hex_digit (n : nat) : ascii :=
  match get n "0123456789abcdef" with
  | Some c => c
  | None => "0"%char
  end.

(** One character inside [repr(s)], [q] being the quote in use. *)
Definition escaped (q : ascii) (a : ascii) : string :=
  let n := nat_of_ascii a in
  if Ascii.eqb a q || Ascii.eqb a "\" then String "\" (String a "")
  else if Nat.eqb n 9 then "\t"
  else if Nat.eqb n 10 then "\n"
  else if Nat.eqb n 13 then "\r"
  else if Nat.ltb n 32 || (Nat.leb 127 n && Nat.leb n 160) || Nat.eqb n 173
  then String "\" (String "x"
         (String (hex_digit (n / 16)) (String (hex_digit (n mod 16)) "")))
  else String a "".

Fixpoint escape_all (q : ascii) (s : string) : string :=
  match s with
  | EmptyString => EmptyString
  | String a t => escaped q a ++ escape_all q t
  end.

(** [repr(s)] of a string: single quotes, unless the string holds a single
    quote and no double quote. *)
Definition repr (s : string) : string :=
  let q := if Str.has_char "'" s && negb (Str.has_char double_quote s)
           then double_quote else "'"%char in
  String q (escape_all q s ++ String q "").

Definition decimal (n : N) : string :=
  NilZero.string_of_uint (N.to_uint n).

(** [int(v)], with the default digit limit of CPython 3.11 and later; the
    message of a syntax error shows at most 200 characters of [repr]. *)
Definition int (v : value) : result Z :=
  match v with
  | VNone =>
      Raise (mkExn "TypeError"
               "int() argument must be a string, a bytes-like object or a real number, not 'NoneType'")
  | VBool b => Ok (if b then 1 else 0)%Z
  | VInt z => Ok z
  | VStr s =>
      match int_of_string s with
      | Value z => Ok z
      | Invalid =>
          Raise (mkExn "ValueError"
                   ("invalid literal for int() with base 10: "
                    ++ substring 0 200 (repr s)))
      | TooLong n =>
          Raise (mkExn "ValueError"
                   ("Exceeds the limit (4300 digits) for integer string conversion: value has "
                    ++ decimal n
                    ++ " digits; use sys.set_int_max_str_digits() to increase the limit"))
      end
  end.

End Py.

(** A fetched row, and [row[i]]. *)
Definition row : Type := list value.

Definition row_item (i : nat) (r : row) : result value :=
  match nth_error r i with
  | Some v => Ok v
  | None => Raise (mkExn "IndexError" "tuple index out of range")
  end.

(** One entry of [cursor.description]: the column name, then the six other
    fields of the DB-API tuple. *)
Record column_description : Type :=
  mkDesc { cd_name : string; cd_rest : list value }.

(** [bool(cursor.description)]: [None] and the empty sequence are falsy. *)
Definition desc_truthy (d : option (list column_description)) : bool :=
  match d with
  | Some (_ :: _) => true
  | _ => false
  end.

Definition desc_columns (d : option (list column_description)) : list string :=
  match d with
  | Some l => map cd_name l
  | None => []
  end.

(** A list comprehension whose element expression may raise. *)
Fixpoint map_result {A B : Type} (f : A -> result B) (l : list A) : result (list B) :=
  match l with
  | [] => Ok []
  | a :: t =>
      let? b := f a in
      let? bs := map_result f t in
      Ok (b :: bs)
  end.

(** ** The driver *)

(** The calls a handler makes on the driver, in the order they are made. *)
Inductive event : Type :=
| EvConnect (conn_str : string)
| EvCursor
| EvExecute (sql : string) (params : list value)
| EvFetchall
| EvFetchone
| EvCommit
| EvExit (exc : option exn).

(** What a handler writes to the error stream. *)
Inductive log_line : Type :=
| LogConnectionError (e : exn)
| LogHandlerError (handler : string) (e : exn)
| LogTraceback (e : exn).

(** The driver module over a world state [W] (the driver's own state and the
    database behind it).  [available] tells whether the import of the driver
    succeeded; [conn_exit] is the connection's [__exit__], given the
    exception in flight if there is one; it does not swallow that exception.
    [description] and [rowcount] are attribute reads. *)
Record Driver (W : Type) : Type := mkDriver {
  available : bool;
  connect : string -> W -> result unit * W;
  cursor : W -> result unit * W;
  execute : string -> list value -> W -> result unit * W;
  description : W -> option (list column_description);
  fetchall : W -> result (list row) * W;
  fetchone : W -> result (option row) * W;
  rowcount : W -> Z;
  commit : W -> result unit * W;
  conn_exit : option exn -> W -> result unit * W
}.
Arguments available {W} _.
Arguments connect {W} _ _ _.
Arguments cursor {W} _ _.
Arguments execute {W} _ _ _ _.
Arguments description {W} _ _.
Arguments fetchall {W} _ _.
Arguments fetchone {W} _ _.
Arguments rowcount {W} _ _.
Arguments commit {W} _ _.
Arguments conn_exit {W} _ _ _.

(** The state a handler runs in: the world, the driver calls made so far
    (oldest first) and the lines written to the error stream. *)
Record state (W : Type) : Type := mkState {
  world : W;
  calls : list event;
  stderr : list log_line
}.
Arguments mkState {W} _ _ _.
Arguments world {W} _.
Arguments calls {W} _.
Arguments stderr {W} _.

Definition start {W : Type} (w : W) : state W := mkState w [] [].

(** ** Responses *)

Record column_info : Type := mkColumn {
  name : string;
  type : string;
  nullable : bool;
  default : option string;
  max_length : option Z
}.

(** The dictionaries the handlers return, one constructor per key set. *)
Inductive response : Type :=
| Tables (tables : list value)
| QueryResult (columns : list string) (rows : list (list value))
| ExecResult (message : string) (affected_rows : Z)
| Error (error : string)
| TableSchema (table_name : string) (columns : list column_info)
| TableCount (table_name : string) (row_count : Z).

(** The statements with a fixed text. *)
Definition list_tables_sql : string :=
  "SELECT TABLE_NAME FROM INFORMATION_SCHEMA.TABLES WHERE TABLE_TYPE = 'BASE TABLE'".

Definition describe_table_sql : string :=
  "
                SELECT 
                    COLUMN_NAME,
                    DATA_TYPE,
                    IS_NULLABLE,
                    COLUMN_DEFAULT,
                    CHARACTER_MAXIMUM_LENGTH
                FROM INFORMATION_SCHEMA.COLUMNS 
                WHERE TABLE_NAME = ?
                ORDER BY ORDINAL_POSITION
            ".

(** One element of the [columns] list of [describe_table]; the first
    exception of an index or of a conversion ends the evaluation. *)
Definition shape_column (col : row) : result column_info :=
  let? c0 := row_item 0 col in
  let? c1 := row_item 1 col in
  let? c2 := row_item 2 col in
  let? c3 := row_item 3 col in
  let? c4 := row_item 4 col in
  let? longest := (if Py.truthy c4
                   then let? z := Py.int c4 in Ok (Some z)
                   else Ok None) in
  Ok {| name := if Py.truthy c0 then Py.str c0 else "";
        type := if Py.truthy c1 then Py.str c1 else "";
        nullable := if Py.truthy c2 then String.eqb (Py.str c2) "YES" else false;
        default := if Py.truthy c3 then Some (Py.str c3) else None;
        max_length := longest |}.

(** [int(result[0]) if result and result[0] is not None else 0] *)
Definition count_of (fetched : option row) : result Z :=
  match fetched with
  | Some (v :: _) => if negb (Py.is_none v) then Py.int v else Ok 0%Z
  | _ => Ok 0%Z
  end.

(** ** Handlers *)

Section Server.

Context {W : Type}.
Variable drv : Driver W.
(** [os.environ.get] *)
Variable environ : string -> option string.

(** A computation that reads and changes the state and returns or raises. *)
Definition M (A : Type) : Type := state W -> result A * state W.

Definition ret {A : Type} (a : A) : M A := fun st => (Ok a, st).

Definition raise {A : Type} (e : exn) : M A := fun st => (Raise e, st).

Definition bind {A B : Type} (m : M A) (f : A -> M B) : M B :=
  fun st =>
    match m st with
    | (Ok a, st') => f a st'
    | (Raise e, st') => (Raise e, st')
    end.

Notation "x <- m ;; k" := (bind m (fun x => k))
  (at level 61, m at next level, right associativity).
Notation "m ;; k" := (bind m (fun _ => k))
  (at level 61, right associativity).

(** A pure step that may raise. *)
Definition lift {A : Type} (r : result A) : M A := fun st => (r, st).

(** [try: body  except Exception as e: handler(e)] *)
Definition try_except {A : Type} (body : M A) (handler : exn -> M A) : M A :=
  fun st =>
    match body st with
    | (Ok a, st') => (Ok a, st')
    | (Raise e, st') => handler e st'
    end.

(** A call on the driver: it is recorded, then acts on the world. *)
Definition call {A : Type} (ev : event) (op : W -> result A * W) : M A :=
  fun st =>
    let (r, w) := op (world st) in
    (r, mkState w (calls st ++ [ev]) (stderr st)).

(** An attribute read on the cursor. *)
Definition read {A : Type} (attr : W -> A) : M A :=
  fun st => (Ok (attr (world st)), st).

(** [print(..., file=sys.stderr)] and [traceback.print_exc(file=sys.stderr)] *)
Definition log (l : log_line) : M unit :=
  fun st => (Ok tt, mkState (world st) (calls st) (stderr st ++ [l])).

Definition environ_get (key default_value : string) : string :=
  match environ key with
  | Some v => v
  | None => default_value
  end.

(** An environment value inside an f-string: [None] is printed as such. *)
Definition fmt (v : option string) : string :=
  match v with
  | Some s => s
  | None => "None"
  end.

Definition conn_str : string :=
  "DRIVER={" ++ environ_get "MSSQL_DRIVER" "ODBC Driver 17 for SQL Server" ++ "};"
  ++ "SERVER=" ++ fmt (environ "MSSQL_SERVER") ++ ","
  ++ environ_get "MSSQL_PORT" "1433" ++ ";"
  ++ "DATABASE=" ++ fmt (environ "MSSQL_DATABASE") ++ ";"
  ++ "UID=" ++ fmt (environ "MSSQL_USER") ++ ";"
  ++ "PWD=" ++ fmt (environ "MSSQL_PASSWORD").

Definition get_connection : M unit :=
  if negb (available drv)
  then raise (mkExn "ImportError"
                "pyodbc is not installed. Install it with: pip install pyodbc")
  else
    try_except
      (call (EvConnect conn_str) (connect drv conn_str))
      (fun e => log (LogConnectionError e) ;; raise e).

(** [with get_connection() as conn: body].  Entering the connection returns
    the connection itself; on the way out its [__exit__] runs, whether the
    body returned or raised, and an exception of [__exit__] replaces the
    outcome of the body. *)
Definition with_connection {A : Type} (body : M A) : M A :=
  fun st =>
    match get_connection st with
    | (Raise e, st1) => (Raise e, st1)
    | (Ok _, st1) =>
        match body st1 with
        | (Ok a, st2) =>
            match call (EvExit None) (conn_exit drv None) st2 with
            | (Ok _, st3) => (Ok a, st3)
            | (Raise e', st3) => (Raise e', st3)
            end
        | (Raise e, st2) =>
            match call (EvExit (Some e)) (conn_exit drv (Some e)) st2 with
            | (Ok _, st3) => (Raise e, st3)
            | (Raise e', st3) => (Raise e', st3)
            end
        end
    end.

Definition report (handler : string) (e : exn) : M unit :=
  log (LogHandlerError handler e) ;; log (LogTraceback e).

(** Each handler is a [try] block and its [except Exception] clause. *)

Definition list_tables_try : M response :=
  with_connection
    (call EvCursor (cursor drv) ;;
     call (EvExecute list_tables_sql []) (execute drv list_tables_sql []) ;;
     fetched <- call EvFetchall (fetchall drv) ;;
     tables <- lift (map_result (row_item 0) fetched) ;;
     ret (Tables tables)).

Definition list_tables : M response :=
  try_except list_tables_try
    (fun e => report "list_tables" e ;; ret (Tables [])).

Definition preview_table_try (table_name : string) : M response :=
  safe_name <- lift (validate_table_name table_name) ;;
  with_connection
    (call EvCursor (cursor drv) ;;
     let sql := "SELECT TOP 100 * FROM " ++ safe_name in
     call (EvExecute sql []) (execute drv sql []) ;;
     d <- read (description drv) ;;
     let columns := if desc_truthy d then desc_columns d else [] in
     fetched <- call EvFetchall (fetchall drv) ;;
     ret (QueryResult columns fetched)).

Definition preview_table (table_name : string) : M response :=
  try_except (preview_table_try table_name)
    (fun e => report "preview_table" e ;; ret (QueryResult [] [])).

Definition run_query_try (query : string) : M response :=
  with_connection
    (call EvCursor (cursor drv) ;;
     call (EvExecute query []) (execute drv query []) ;;
     d <- read (description drv) ;;
     if desc_truthy d then
       let columns := desc_columns d in
       fetched <- call EvFetchall (fetchall drv) ;;
       ret (QueryResult columns fetched)
     else
       call EvCommit (commit drv) ;;
       n <- read (rowcount drv) ;;
       ret (ExecResult "Query executed successfully" n)).

Definition run_query (query : string) : M response :=
  try_except (run_query_try query)
    (fun e => report "run_query" e ;; ret (Error (exc_str e))).

Definition describe_table_try (table_name : string) : M response :=
  safe_name <- lift (validate_table_name table_name) ;;
  with_connection
    (call EvCursor (cursor drv) ;;
     let table_only := Str.last_item (Str.split "." table_name) in
     call (EvExecute describe_table_sql [VStr table_only])
          (execute drv describe_table_sql [VStr table_only]) ;;
     fetched <- call EvFetchall (fetchall drv) ;;
     columns <- lift (map_result shape_column fetched) ;;
     ret (TableSchema table_name columns)).

Definition describe_table (table_name : string) : M response :=
  try_except (describe_table_try table_name)
    (fun e => report "describe_table" e ;; ret (Error (exc_str e))).

Definition get_table_count_try (table_name : string) : M response :=
  safe_name <- lift (validate_table_name table_name) ;;
  with_connection
    (call EvCursor (cursor drv) ;;
     let sql := "SELECT COUNT(*) FROM " ++ safe_name in
     call (EvExecute sql []) (execute drv sql []) ;;
     fetched <- call EvFetchone (fetchone drv) ;;
     count <- lift (count_of fetched) ;;
     ret (TableCount table_name count)).

Definition get_table_count (table_name : string) : M response :=
  try_except (get_table_count_try table_name)
    (fun e => report "get_table_count" e ;; ret (Error (exc_str e))).


End Server.

Arguments conn_str : simpl never.

(** ** A small driver to run the handlers on

    One table behind a driver that understands the statements the handlers
    send.  The cursor remembers which result the last statement opened and
    how many of its rows were fetched; [m_fault] injects an exception at a
    named operation. *)

Module Mem.

Inductive result_kind : Type :=
| KRows (limit : option nat)
| KCount
| KSchema (found : bool).

Inductive cursor_state : Type :=
| Idle
| Opened (k : result_kind) (fetched : nat)
| Affected (n : Z).

Record db : Type := mkDb {
  m_table : string;
  m_columns : list column_description;
  m_nrows : nat;
  m_cell : nat -> nat -> value;
  m_schema : list (value * value * value * value * value);
  m_fault : string -> option exn;
  cur : cursor_state
}.

Definition with_cursor (w : db) (c : cursor_state) : db :=
  mkDb (m_table w) (m_columns w) (m_nrows w) (m_cell w) (m_schema w)
    (m_fault w) c.

Definition guarded {A : Type} (op : string) (w : db) (k : result A * db) : result A * db :=
  match m_fault w op with
  | Some e => (Raise e, w)
  | None => k
  end.

Definition table_rows (w : db) : list row :=
  map (fun i => map (m_cell w i) (seq 0 (List.length (m_columns w))))
    (seq 0 (m_nrows w)).

Definition schema_columns : list column_description :=
  map (fun n => mkDesc n [])
    ["COLUMN_NAME"; "DATA_TYPE"; "IS_NULLABLE"; "COLUMN_DEFAULT";
     "CHARACTER_MAXIMUM_LENGTH"].

Definition schema_row (c : value * value * value * value * value) : row :=
  let '(c0, c1, c2, c3, c4) := c in [c0; c1; c2; c3; c4].

Definition description_of (w : db) (k : result_kind) : list column_description :=
  match k with
  | KRows _ => m_columns w
  | KCount => [mkDesc "" []]
  | KSchema _ => schema_columns
  end.

Definition rows_of (w : db) (k : result_kind) : list row :=
  match k with
  | KRows (Some n) => firstn n (table_rows w)
  | KRows None => table_rows w
  | KCount => [[VInt (Z.of_nat (m_nrows w))]]
  | KSchema true => map schema_row (m_schema w)
  | KSchema false => []
  end.

Definition run_statement (sql : string) (params : list value) (w : db) : db :=
  with_cursor w
    (if prefix "SELECT TOP 100 " sql then Opened (KRows (Some 100)) 0
     else if prefix "SELECT COUNT(*) FROM " sql then Opened KCount 0
     else if String.eqb sql describe_table_sql
     then Opened (KSchema
                    (match params with
                     | [VStr t] => String.eqb t (m_table w)
                     | _ => false
                     end)) 0
     else if prefix "SELECT" sql then Opened (KRows None) 0
     else Affected (Z.of_nat (m_nrows w))).

Definition no_results : exn :=
  mkExn "ProgrammingError" "No results.  Previous SQL was not a query.".

Definition driver : Driver db := {|
  available := true;
  connect := fun _ w => guarded "connect" w (Ok tt, w);
  cursor := fun w => guarded "cursor" w (Ok tt, w);
  execute := fun sql params w =>
    guarded "execute" w (Ok tt, run_statement sql params w);
  description := fun w =>
    match cur w with
    | Opened k _ => Some (description_of w k)
    | _ => None
    end;
  fetchall := fun w =>
    guarded "fetchall" w
      (match cur w with
       | Opened k n =>
           (Ok (skipn n (rows_of w k)),
            with_cursor w (Opened k (List.length (rows_of w k))))
       | _ => (Raise no_results, w)
       end);
  fetchone := fun w =>
    guarded "fetchone" w
      (match cur w with
       | Opened k n =>
           match nth_error (rows_of w k) n with
           | Some r => (Ok (Some r), with_cursor w (Opened k (S n)))
           | None => (Ok None, w)
           end
       | _ => (Raise no_results, w)
       end);
  rowcount := fun w =>
    match cur w with
    | Affected n => n
    | _ => (-1)%Z
    end;
  commit := fun w => guarded "commit" w (Ok tt, w);
  conn_exit := fun _ w => guarded "exit" w (Ok tt, w)
|}.

Definition no_fault : string -> option exn := fun _ => None.

Definition fault_at (op : string) (e : exn) : string -> option exn :=
  fun o => if String.eqb o op then Some e else None.

(** A table [Users] of [n] rows. *)
Definition users (n : nat) (fault : string -> option exn) : db :=
  mkDb "Users" [mkDesc "id" []; mkDesc "email" []] n
    (fun i j => match j with
                | O => VInt (Z.of_nat i)
                | _ => VStr "a@b"
                end)
    [(VStr "id", VStr "int", VStr "NO", VNone, VNone);
     (VStr "email", VStr "nvarchar", VStr "YES", VStr "", VInt 255)]
    fault Idle.

Definition env : string -> option string := fun _ => None.

(** A driver whose every call succeeds and whose cursor always holds the
    same description, rows and row count. *)
Definition canned (d : option (list column_description)) (rws : list row)
    (n : Z) : Driver unit := {|
  available := true;
  connect := fun _ w => (Ok tt, w);
  cursor := fun w => (Ok tt, w);
  execute := fun _ _ w => (Ok tt, w);
  description := fun _ => d;
  fetchall := fun w => (Ok rws, w);
  fetchone := fun w => (Ok (hd_error rws), w);
  rowcount := fun _ => n;
  commit := fun w => (Ok tt, w);
  conn_exit := fun _ w => (Ok tt, w)
|}.

End Mem.

(** The driver returns rows that have one value per described column. *)
Definition rows_fit_description {W : Type} (drv : Driver W) : Prop :=
  forall (w w' : W) (fetched : list row),
    fetchall drv w = (Ok fetched, w') ->
    Forall (fun r => List.length r = List.length (desc_columns (description drv w)))
      fetched.

(** The database honours [TOP 100]: after a statement that starts with
    [SELECT TOP 100] no more than 100 rows can be fetched. *)
Definition honours_top_100 {W : Type} (drv : Driver W) : Prop :=
  forall (sql : string) (params : list value) (w w' w'' : W) (fetched : list row),
    prefix "SELECT TOP 100 " sql = true ->
    execute drv sql params w = (Ok tt, w') ->
    fetchall drv w' = (Ok fetched, w'') ->
    List.length fetched <= 100.


Definition succeeded {A : Type} (r : result A) : bool :=
  match r with
  | Ok _ => true
  | Raise _ => false
  end.

(** The driver operation that a recorded call stands for: whether it
    returned, and the world it left. *)
Definition perform {W : Type} (drv : Driver W) (ev : event) (w : W) : bool * W :=
  match ev with
  | EvConnect cs => let (r, w') := connect drv cs w in (succeeded r, w')
  | EvCursor => let (r, w') := cursor drv w in (succeeded r, w')
  | EvExecute sql params =>
      let (r, w') := execute drv sql params w in (succeeded r, w')
  | EvFetchall => let (r, w') := fetchall drv w in (succeeded r, w')
  | EvFetchone => let (r, w') := fetchone drv w in (succeeded r, w')
  | EvCommit => let (r, w') := commit drv w in (succeeded r, w')
  | EvExit exc => let (r, w') := conn_exit drv exc w in (succeeded r, w')
  end.




(** The [except] clause of [handler] turns every exception of [try_block]
    into the response [fallback e], touching neither world nor driver. *)
Definition caught {W : Type} (try_block handler : @M W response)
    (fallback : exn -> response) : Prop :=
  forall st : state W,
    match try_block st with
    | (Ok r, st1) => handler st = (Ok r, st1)
    | (Raise e, st1) =>
        exists st2 : state W,
          handler st = (Ok (fallback e), st2) /\
          world st2 = world st1 /\ calls st2 = calls st1
    end.

(** The check of [validate_table_name]. *)
Definition accepted (table_name : string) : bool :=
  Re.re_match table_name_re table_name.

(** The characters a string can hold and still pass the check of
    [validate_table_name]. *)
Definition allowed (a : ascii) : bool :=
  word_char a || Ascii.eqb a "." || Ascii.eqb a Str.newline.

(** The characters that the specification names as forbidden; the two
    comment openers are covered by their first characters. *)
Definition forbidden : list ascii :=
  [";"; "'"; "034"; "["; "]"; " "; "-"; "/"]%char.

(** A table reference with a line feed after the name. *)
Definition users_newline : string := "Users" ++ String Str.newline "".

(** ** Further notions for the properties of the handlers *)

(** A character of a segment as the check lets it through: a word
    character, or the line feed that [$] tolerates at the end. *)
Definition plain_char (a : ascii) : bool :=
  word_char a || Ascii.eqb a Str.newline.

Definition is_exit (ev : event) : bool :=
  match ev with
  | EvExit _ => true
  | _ => false
  end.

(** The calls of [tr] other than the exit of the connection scope. *)
Definition non_exit (tr : list event) : list event :=
  filter (fun ev => negb (is_exit ev)) tr.

(** Serving the calls of [plan] in order and stopping after the first one
    that raises: the calls made, whether all returned, and the world left. *)
Fixpoint until_failure {W : Type} (drv : Driver W) (plan : list event) (w : W)
  : list event * bool * W :=
  match plan with
  | [] => ([], true, w)
  | ev :: rest =>
      let (ok, w') := perform drv ev w in
      if ok
      then let '(made, all_ok, w'') := until_failure drv rest w' in
           (ev :: made, all_ok, w'')
      else ([ev], false, w')
  end.

Definition performed {W : Type} (drv : Driver W) (plan : list event) (w : W)
  : list event :=
  fst (fst (until_failure drv plan w)).

(** The server started without the driver module: [pyodbc] is [None]. *)
Definition missing_driver : Driver unit := {|
  available := false;
  connect := fun _ w => (Ok tt, w);
  cursor := fun w => (Ok tt, w);
  execute := fun _ _ w => (Ok tt, w);
  description := fun _ => None;
  fetchall := fun w => (Ok [], w);
  fetchone := fun w => (Ok None, w);
  rowcount := fun _ => (-1)%Z;
  commit := fun w => (Ok tt, w);
  conn_exit := fun _ w => (Ok tt, w)
|}.

(** A driver that tells whether its connection is open.  Leaving the
    connection scope ends the transaction and leaves the connection open,
    which is what pyodbc documents for its connections; nothing but a call
    of [close], which this driver interface does not even need to offer
    since no handler makes it, would close it. *)
Module Lingering.

Record session : Type := mkSession {
  is_open : bool;
  in_transaction : bool
}.

Definition driver : Driver session := {|
  available := true;
  connect := fun _ _ => (Ok tt, mkSession true true);
  cursor := fun w => (Ok tt, w);
  execute := fun _ _ w => (Ok tt, w);
  description := fun _ => None;
  fetchall := fun w => (Ok [], w);
  fetchone := fun w => (Ok None, w);
  rowcount := fun _ => 0%Z;
  commit := fun w => (Ok tt, w);
  conn_exit := fun _ w => (Ok tt, mkSession (is_open w) false)
|}.


End Lingering.

(** The schema rows of a response, or its error message. *)
Definition schema_answer (r : result response) : option (list column_info + string) :=
  match r with
  | Ok (TableSchema _ cols) => Some (inl cols)
  | Ok (Error m) => Some (inr m)
  | _ => None
  end.

(** From a fresh state the handler wrote nothing to the error stream when
    its [try] block returned, and when the block raised [e] what it wrote
    ends with the handler's own report of [e]. *)
Definition silent_or_logged {W : Type} (label : string)
    (try_block handler : @M W response) (w : W) : Prop :=
  match fst (try_block (start w)) with
  | Ok _ => stderr (snd (handler (start w))) = []
  | Raise e =>
      exists pre : list log_line,
        stderr (snd (handler (start w)))
        = (pre ++ [LogHandlerError label e; LogTraceback e])%list
  end.

(** ** db_conn.py

    The module body: it builds the SQLAlchemy URL from the environment,
    tries to create an engine and to open a connection, prints the outcome,
    and binds a session factory to the engine.  SQLAlchemy is outside the
    repository; its calls are given by their outcomes. *)

Module DbConn.

Record SqlAlchemy (E : Type) : Type := mkSqlAlchemy {
  create_engine : string -> Z -> result E;
  engine_connect : E -> result unit;
  connection_exit : E -> result unit
}.
Arguments create_engine {E} _ _ _.
Arguments engine_connect {E} _ _.
Arguments connection_exit {E} _ _.

Definition driver : string := "ODBC Driver 17 for SQL Server".

Definition connection_string (getenv : string -> option string) : string :=
  "mssql+pyodbc://" ++ fmt (getenv "MSSQL_USER") ++ ":"
  ++ fmt (getenv "MSSQL_PASSWORD") ++ "@" ++ fmt (getenv "MSSQL_SERVER") ++ "/"
  ++ fmt (getenv "MSSQL_DATABASE") ++ "?driver=" ++ Str.replace " " "+" driver.

(** The names the module binds: [engine] and the engine [Session] is bound
    to. *)
Record namespace (E : Type) : Type := mkNamespace {
  engine : E;
  session_bind : E
}.
Arguments mkNamespace {E} _ _.
Arguments engine {E} _.
Arguments session_bind {E} _.

(** The [try] statement: the lines printed, and [engine] if it was bound. *)
Definition try_connection {E : Type} (sa : SqlAlchemy E)
    (getenv : string -> option string) : list string * option E :=
  match create_engine sa (connection_string getenv) 10 with
  | Raise e => (["Connection failed: " ++ exc_str e], None)
  | Ok eng =>
      match engine_connect sa eng with
      | Raise e => (["Connection failed: " ++ exc_str e], Some eng)
      | Ok _ =>
          match connection_exit sa eng with
          | Raise e =>
              (["Connection successful!"; "Connection failed: " ++ exc_str e],
               Some eng)
          | Ok _ => (["Connection successful!"], Some eng)
          end
      end
  end.

(** Importing the module: what it prints, and the names it binds or the
    exception that ends the import. *)
Definition import {E : Type} (sa : SqlAlchemy E)
    (getenv : string -> option string) : list string * result (namespace E) :=
  let (printed, bound) := try_connection sa getenv in
  match bound with
  | Some eng => (printed, Ok (mkNamespace eng eng))
  | None => (printed, Raise (mkExn "NameError" "name 'engine' is not defined"))
  end.

End DbConn.

(** ** setup.py

    The operating system is given by the outcome of the [pip] run
    ([subprocess.check_call] raises when it fails) and by whether the file
    [.env] exists.  Printed text is kept as UTF-8 bytes. *)

Module Setup.

Record Os : Type := mkOs {
  check_call : result unit;
  path_exists : bool
}.

(** How a run ends: the function returns, or [sys.exit] ends the process. *)
Inductive ending : Type :=
| Returned
| Exited (status : Z).

Definition install_requirements (os : Os) : list string * result unit :=
  (["📦 Installing requirements..."], check_call os).

Definition check_env_file (os : Os) : list string * bool :=
  if negb (path_exists os)
  then (["⚠️  .env file not found!";
         "Please configure your database settings in .env file"], false)
  else (["✅ .env file found"], true).

Definition main (os : Os) : list string * ending :=
  let start_line := "🚀 Setting up MSSQL MCP Server..." in
  let (out1, installed) := install_requirements os in
  match installed with
  | Ok _ =>
      let (out2, _) := check_env_file os in
      ((start_line :: out1 ++ out2 ++
        [String Str.newline "✅ Setup complete!";
         String Str.newline "Next steps:";
         "1. Configure your database settings in .env file";
         "2. Run: python src/mcp/server/server.py"])%list,
       Returned)
  | Raise e =>
      ((start_line :: out1 ++ [("❌ Setup failed: " ++ exc_str e)%string])%list,
       Exited 1)
  end.

End Setup.

(** * Properties *)

(** ** Strings and the matcher *)

Lemma word_char_plain (a : ascii) :
  word_char a = true ->
  Ascii.eqb a "." = false /\ Ascii.eqb a "]" = false /\ Ascii.eqb a "[" = false.
Proof.
  destruct a as [[|] [|] [|] [|] [|] [|] [|] [|]]; cbv; intro H;
    repeat split; solve [reflexivity | discriminate H].
Qed.

Lemma append_empty_r (s : string) : s ++ "" = s.
Proof. induction s as [|a s IH]; cbn; [reflexivity | now rewrite IH]. Qed.

Lemma append_assoc (a b c : string) : (a ++ b) ++ c = a ++ (b ++ c).
Proof. induction a as [|x a IH]; cbn; [reflexivity | now rewrite IH]. Qed.

Lemma plus_set_elim (cs : list Re.set_item) (k : string -> bool) (s : string) :
  Re.plus_set cs s k = true ->
  exists w rest, s = w ++ rest /\ w <> "" /\
                 Str.all_chars (Re.in_set cs) w = true /\ k rest = true.
Proof.
  induction s as [|a s IH]; cbn; [discriminate|].
  intro H. apply andb_true_iff in H as [Ha H].
  apply orb_true_iff in H as [H | H].
  - destruct (IH H) as (w & rest & -> & _ & Hw & Hk).
    exists (String a w), rest. cbn. rewrite Ha, Hw. now repeat split.
  - exists (String a ""), s. cbn. rewrite Ha. now repeat split.
Qed.

Lemma plus_set_intro (cs : list Re.set_item) (k : string -> bool) (w rest : string) :
  w <> "" -> Str.all_chars (Re.in_set cs) w = true -> k rest = true ->
  Re.plus_set cs (w ++ rest) k = true.
Proof.
  intros Hne Hw Hk. induction w as [|a w IH]; [congruence|].
  cbn in Hw |- *. apply andb_true_iff in Hw as [Ha Hw]. rewrite Ha. cbn.
  destruct w as [|b w].
  - cbn. rewrite Hk. apply orb_true_r.
  - rewrite IH; [reflexivity | discriminate | exact Hw].
Qed.

Lemma spec_pattern_shape (s : string) :
  spec_pattern s = true ->
  exists w1, is_segment w1 /\
             (s = w1 \/ exists w2, is_segment w2 /\ s = w1 ++ String "." w2).
Proof.
  unfold spec_pattern, Re.re_match, table_name_re_anchored. cbn.
  rewrite Nat.eqb_refl. cbn. intro H.
  apply plus_set_elim in H as (w1 & rest & -> & Hne & Hw & Hk).
  exists w1. split; [now split|].
  apply orb_true_iff in Hk as [Hk | Hk].
  - destruct rest as [|a t]; [discriminate|].
    apply andb_true_iff in Hk as [Ha Hk].
    apply Ascii.eqb_eq in Ha as ->.
    apply plus_set_elim in Hk as (w2 & r2 & -> & Hne2 & Hw2 & Hk2).
    destruct r2; [|discriminate].
    right. exists w2. split; [now split|]. now rewrite append_empty_r.
  - destruct rest; [|discriminate]. left. now rewrite append_empty_r.
Qed.

Lemma segments_match (w1 tail : string) :
  is_segment w1 ->
  (tail = "" \/ tail = String Str.newline "" \/
   exists w2 nl, is_segment w2 /\ (nl = "" \/ nl = String Str.newline "") /\
                 tail = String "." (w2 ++ nl)) ->
  Re.re_match table_name_re (w1 ++ tail) = true.
Proof.
  intros [Hne Hw] Ht. unfold Re.re_match, table_name_re. cbn.
  rewrite Nat.eqb_refl. cbn.
  apply plus_set_intro; [exact Hne | exact Hw |].
  destruct Ht as [-> | [-> | (w2 & nl & [Hne2 Hw2] & Hnl & ->)]];
    [reflexivity | reflexivity |].
  cbn. apply orb_true_iff. left.
  apply plus_set_intro; [exact Hne2 | exact Hw2 |].
  destruct Hnl as [-> | ->]; reflexivity.
Qed.

Lemma spec_pattern_accepted (s : string) :
  spec_pattern s = true -> Re.re_match table_name_re s = true.
Proof.
  intro H. apply spec_pattern_shape in H as (w1 & Hw1 & [-> | (w2 & Hw2 & ->)]).
  - rewrite <- (append_empty_r w1). apply segments_match; auto.
  - apply segments_match; [exact Hw1|].
    right. right. exists w2, "". rewrite append_empty_r. auto.
Qed.

Lemma split_nonempty (sep : ascii) (s : string) : Str.split sep s <> [].
Proof.
  induction s as [|a s IH]; cbn; [discriminate|].
  destruct (Ascii.eqb a sep); [discriminate|].
  destruct (Str.split sep s); [contradiction | discriminate].
Qed.

Lemma split_str_from_nonempty (sep : string) (s : string) (skip : nat) :
  Str.split_str_from sep skip s <> [].
Proof.
  revert skip. induction s as [|a s IH]; intro skip; [discriminate|].
  cbn [Str.split_str_from]. destruct skip as [|k]; [|apply IH].
  destruct (prefix sep (String a s)); [discriminate|].
  specialize (IH 0). destruct (Str.split_str_from sep 0 s);
    [contradiction | discriminate].
Qed.

Lemma replace_segment (w rest : string) :
  Str.all_chars word_char w = true ->
  Str.replace "." "].[" (w ++ rest) = w ++ Str.replace "." "].[" rest.
Proof.
  induction w as [|a w IH]; cbn; [reflexivity|].
  intro H. apply andb_true_iff in H as [Ha Hw].
  destruct (word_char_plain a Ha) as (-> & _). now rewrite IH.
Qed.

Lemma split_segment (w rest : string) :
  Str.all_chars word_char w = true ->
  Str.split "." (w ++ rest) = prepend w (Str.split "." rest).
Proof.
  induction w as [|a w IH]; cbn.
  - intros _. destruct (Str.split "." rest) eqn:E; [|reflexivity].
    now apply split_nonempty in E.
  - intro H. apply andb_true_iff in H as [Ha Hw].
    destruct (word_char_plain a Ha) as (-> & _). rewrite (IH Hw).
    destruct (Str.split "." rest) eqn:E; [|reflexivity].
    now apply split_nonempty in E.
Qed.

Lemma split_str_segment (w rest : string) :
  Str.all_chars word_char w = true ->
  Str.split_str_from "].[" 0 (w ++ rest)
  = prepend w (Str.split_str_from "].[" 0 rest).
Proof.
  induction w as [|a w IH].
  - intros _. cbn [append].
    destruct (Str.split_str_from "].[" 0 rest) eqn:E; [|reflexivity].
    now apply split_str_from_nonempty in E.
  - intro H. cbn [Str.all_chars] in H. apply andb_true_iff in H as [Ha Hw].
    destruct (word_char_plain a Ha) as (_ & Hb & _).
    cbn [append Str.split_str_from prefix].
    destruct (Ascii.ascii_dec "]" a) as [<- | Hn]; [discriminate Hb|].
    rewrite (IH Hw).
    destruct (Str.split_str_from "].[" 0 rest) eqn:E; [|reflexivity].
    now apply split_str_from_nonempty in E.
Qed.

Lemma chop_close_app (x : string) : chop_close (x ++ "]") = Some x.
Proof.
  induction x as [|a x IH]; [reflexivity|].
  cbn [append chop_close]. destruct x as [|b x]; cbn in *.
  - reflexivity.
  - cbn in IH. now rewrite IH.
Qed.

Lemma segment_alone (w : string) :
  Str.all_chars word_char w = true ->
  Str.replace "." "].[" w = w /\
  Str.split "." w = [w] /\
  Str.split_str "].[" w = [w].
Proof.
  intro Hw. unfold Str.split_str.
  rewrite <- (append_empty_r w) at 1 3 5.
  rewrite replace_segment, split_segment, split_str_segment by exact Hw.
  cbn. now rewrite !append_empty_r.
Qed.

Lemma validate_accepts (s : string) :
  Re.re_match table_name_re s = true ->
  validate_table_name s = Ok ("[" ++ Str.replace "." "].[" s ++ "]").
Proof. unfold validate_table_name. now intros ->. Qed.

Lemma validate_rejects (s : string) :
  Re.re_match table_name_re s = false ->
  validate_table_name s = Raise (mkExn "ValueError" ("Invalid table name: " ++ s)).
Proof. unfold validate_table_name. now intros ->. Qed.

(** C2.  Every string of the pattern, with [^] and [$] as the two ends of the
    string, is accepted, and cutting the quoted result at its quoting
    boundaries gives back the dot-separated segments of the input;
    [dbo.Users] becomes [[dbo].[Users]]. *)
Theorem validate_quotes_segments :
  (forall s : string,
      spec_pattern s = true ->
      exists q : string,
        validate_table_name s = Ok q /\
        split_quoted q = Some (Str.split "." s)) /\
  validate_table_name "dbo.Users" = Ok "[dbo].[Users]".
Proof.
  split; [|reflexivity].
  intros s Hs. pose proof (spec_pattern_accepted s Hs) as Hm.
  rewrite (validate_accepts s Hm). eexists. split; [reflexivity|].
  apply spec_pattern_shape in Hs as (w1 & [_ Hw1] & [-> | (w2 & [_ Hw2] & ->)]).
  - destruct (segment_alone w1 Hw1) as (-> & -> & Hq).
    cbn. now rewrite chop_close_app, <- Hq.
  - rewrite replace_segment, split_segment by exact Hw1.
    destruct (segment_alone w2 Hw2) as (Hr & Hd & Hq).
    cbn [Str.replace Ascii.eqb Bool.eqb]. cbn [Str.split Ascii.eqb Bool.eqb].
    rewrite Hr, Hd.
    cbn [append split_quoted]. rewrite chop_close_app. cbn [option_map].
    unfold Str.split_str. rewrite split_str_segment by exact Hw1.
    cbn. unfold Str.split_str in Hq. rewrite Hq. now destruct w2.
Qed.

Lemma validate_quotes_segments_witness :
  spec_pattern "dbo.Users" = true /\
  exists q : string,
    validate_table_name "dbo.Users" = Ok q /\
    split_quoted q = Some (Str.split "." "dbo.Users").
Proof.
  split; [reflexivity|].
  apply (proj1 validate_quotes_segments "dbo.Users"). reflexivity.
Defined.

(** ** The handlers, step by step *)

Ltac unfold_handler :=
  unfold list_tables, preview_table, run_query, describe_table, get_table_count in *;
  unfold list_tables_try, preview_table_try, run_query_try, describe_table_try,
    get_table_count_try in *;
  unfold with_connection, get_connection, report in *;
  unfold try_except, bind, call, read, log, lift, ret, raise, start in *.

Ltac norm := cbn [world calls stderr fst snd negb app].

Ltac step_with H := norm; rewrite H.

(** C4.  Once the statement has been executed, [run_query] looks only at the
    description the driver reports.  With column metadata it fetches the rows
    and returns them under the column names, and commits on no path; without
    it, it commits and returns the driver's row count. *)
Theorem run_query_branches_on_description :
  forall (W : Type) (drv : Driver W) (env : string -> option string)
         (query : string) (w w1 w2 w3 : W),
    available drv = true ->
    connect drv (conn_str env) w = (Ok tt, w1) ->
    cursor drv w1 = (Ok tt, w2) ->
    execute drv query [] w2 = (Ok tt, w3) ->
    (desc_truthy (description drv w3) = true ->
       ~ In EvCommit (calls (snd (run_query drv env query (start w)))) /\
       forall (fetched : list row) (w4 w5 : W),
         fetchall drv w3 = (Ok fetched, w4) ->
         conn_exit drv None w4 = (Ok tt, w5) ->
         run_query drv env query (start w)
         = (Ok (QueryResult (desc_columns (description drv w3)) fetched),
            mkState w5
              [EvConnect (conn_str env); EvCursor; EvExecute query [];
               EvFetchall; EvExit None] [])) /\
    (desc_truthy (description drv w3) = false ->
       forall (w4 w5 : W),
         commit drv w3 = (Ok tt, w4) ->
         conn_exit drv None w4 = (Ok tt, w5) ->
         run_query drv env query (start w)
         = (Ok (ExecResult "Query executed successfully" (rowcount drv w4)),
            mkState w5
              [EvConnect (conn_str env); EvCursor; EvExecute query [];
               EvCommit; EvExit None] [])).
Proof.
  intros W drv env query w w1 w2 w3 Hav Hco Hcu Hex. split; intro Hd.
  - split.
    + unfold_handler. rewrite Hav. step_with Hco. step_with Hcu.
      step_with Hex. step_with Hd. norm.
      destruct (fetchall drv w3) as [[fetched|e] w4]; norm.
      * destruct (conn_exit drv None w4) as [[[]|e'] w5]; cbn;
          intuition discriminate.
      * destruct (conn_exit drv (Some e) w4) as [[[]|e'] w5]; cbn;
          intuition discriminate.
    + intros fetched w4 w5 Hfe Hxi. unfold_handler. rewrite Hav.
      step_with Hco. step_with Hcu. step_with Hex. step_with Hd.
      step_with Hfe. step_with Hxi. reflexivity.
  - intros w4 w5 Hcm Hxi. unfold_handler. rewrite Hav.
    step_with Hco. step_with Hcu. step_with Hex. step_with Hd.
    step_with Hcm. step_with Hxi. reflexivity.
Qed.

Lemma run_query_branches_on_description_witness :
  fst (run_query Mem.driver Mem.env "SELECT * FROM Users"
         (start (Mem.users 2 Mem.no_fault)))
  = Ok (QueryResult ["id"; "email"]
          [[VInt 0; VStr "a@b"]; [VInt 1; VStr "a@b"]]) /\
  fst (run_query Mem.driver Mem.env "UPDATE Users SET email = 'x'"
         (start (Mem.users 2 Mem.no_fault)))
  = Ok (ExecResult "Query executed successfully" 2).
Proof.
  split.
  - edestruct (run_query_branches_on_description Mem.db Mem.driver Mem.env
                 "SELECT * FROM Users" (Mem.users 2 Mem.no_fault))
      as [Hread _]; [reflexivity | reflexivity | reflexivity | reflexivity |].
    destruct (Hread eq_refl) as [_ Hq].
    rewrite (Hq _ _ _ eq_refl eq_refl). reflexivity.
  - edestruct (run_query_branches_on_description Mem.db Mem.driver Mem.env
                 "UPDATE Users SET email = 'x'" (Mem.users 2 Mem.no_fault))
      as [_ Hwrite]; [reflexivity | reflexivity | reflexivity | reflexivity |].
    rewrite (Hwrite eq_refl _ _ eq_refl eq_refl). reflexivity.
Defined.

(** ** Exceptions stop at the handler *)

Lemma try_except_caught {W : Type} (body : @M W response) (label : string)
    (fallback : exn -> response) :
  caught body
    (try_except body (fun e => bind (report label e) (fun _ => ret (fallback e))))
    fallback.
Proof.
  intro st. unfold try_except, report, bind, log, ret.
  destruct (body st) as [[r | e] st1]; [reflexivity|].
  cbn. eexists. repeat split.
Qed.

(** C3, as amended.  No handler lets an exception of its [try] block out:
    the block's own result is returned when it returns, and when it raises
    [e] the response is [{tables: []}] for [list_tables],
    [{columns: [], rows: []}] for [preview_table] and [{error: str(e)}] for
    [run_query], [describe_table] and [get_table_count]. *)
Theorem handlers_catch_every_exception :
  forall (W : Type) (drv : Driver W) (env : string -> option string),
    caught (list_tables_try drv env) (list_tables drv env)
      (fun _ => Tables []) /\
    (forall t : string,
        caught (preview_table_try drv env t) (preview_table drv env t)
          (fun _ => QueryResult [] [])) /\
    (forall q : string,
        caught (run_query_try drv env q) (run_query drv env q)
          (fun e => Error (exc_str e))) /\
    (forall t : string,
        caught (describe_table_try drv env t) (describe_table drv env t)
          (fun e => Error (exc_str e))) /\
    (forall t : string,
        caught (get_table_count_try drv env t) (get_table_count drv env t)
          (fun e => Error (exc_str e))).
Proof.
  intros W drv env. repeat split; intros; apply try_except_caught.
Qed.

(** C3, as stated, fails: an exception whose [str] is empty (a
    [MemoryError] while fetching) gives an empty error message. *)
Lemma run_query_empty_error_message :
  fst (run_query Mem.driver Mem.env "SELECT * FROM Users"
         (start (Mem.users 2 (Mem.fault_at "fetchall" (mkExn "MemoryError" "")))))
  = Ok (Error "").
Proof. reflexivity. Qed.

(** ** The connection scope *)

Section Scope.

Context {W : Type}.
Variable drv : Driver W.
Variable env : string -> option string.










End Scope.





(** ** Result sets *)

Lemma columns_of_description (d : option (list column_description)) :
  (if desc_truthy d then desc_columns d else []) = desc_columns d.
Proof. now destruct d as [[|c l]|]. Qed.

(** Case analysis on the next driver call of the handler in the goal. *)
Ltac split_call :=
  norm;
  match goal with
  | |- context [connect ?d ?c ?w] => destruct (connect d c w) as [[[]|?] ?] eqn:?
  | |- context [cursor ?d ?w] => destruct (cursor d w) as [[[]|?] ?] eqn:?
  | |- context [execute ?d ?q ?p ?w] =>
      destruct (execute d q p w) as [[[]|?] ?] eqn:?
  | |- context [fetchall ?d ?w] => destruct (fetchall d w) as [[?|?] ?] eqn:?
  | |- context [fetchone ?d ?w] => destruct (fetchone d w) as [[?|?] ?] eqn:?
  | |- context [commit ?d ?w] => destruct (commit d w) as [[[]|?] ?] eqn:?
  | |- context [conn_exit ?d ?e ?w] =>
      destruct (conn_exit d e w) as [[[]|?] ?] eqn:?
  end; norm.

(** Where the rows and columns of a [preview_table] response come from. *)
Lemma preview_table_inv {W : Type} (drv : Driver W) (env : string -> option string)
    (t : string) (st st' : state W) (cols : list string) (rws : list (list value)) :
  preview_table drv env t st = (Ok (QueryResult cols rws), st') ->
  (cols = [] /\ rws = []) \/
  exists (q : string) (w2 w3 w4 : W),
    validate_table_name t = Ok q /\
    execute drv ("SELECT TOP 100 * FROM " ++ q) [] w2 = (Ok tt, w3) /\
    fetchall drv w3 = (Ok rws, w4) /\
    cols = desc_columns (description drv w3).
Proof.
  unfold_handler. destruct (validate_table_name t) as [q | e] eqn:Hv; norm.
  2: { intro H; injection H as <- <- _; now left. }
  destruct (available drv); norm.
  2: { intro H; injection H as <- <- _; now left. }
  split_call. 2: { intro H; injection H as <- <- _; now left. }
  split_call.
  2: { split_call; intro H; injection H as <- <- _; now left. }
  split_call.
  2: { split_call; intro H; injection H as <- <- _; now left. }
  split_call.
  2: { split_call; intro H; injection H as <- <- _; now left. }
  rewrite columns_of_description.
  split_call; intro H; injection H as <- <- _; [|now left].
  right. eauto 10.
Qed.

(** Where the rows and columns of a [run_query] result set come from. *)
Lemma run_query_inv {W : Type} (drv : Driver W) (env : string -> option string)
    (query : string) (st st' : state W) (cols : list string)
    (rws : list (list value)) :
  run_query drv env query st = (Ok (QueryResult cols rws), st') ->
  exists (w3 w4 : W),
    fetchall drv w3 = (Ok rws, w4) /\
    cols = desc_columns (description drv w3).
Proof.
  unfold_handler. destruct (available drv); norm; [|discriminate].
  split_call; [|discriminate].
  split_call. 2: { split_call; discriminate. }
  split_call. 2: { split_call; discriminate. }
  destruct (desc_truthy _); norm.
  - split_call. 2: { split_call; discriminate. }
    split_call; [|discriminate]. intro H; injection H as <- <- _. eauto.
  - split_call. 2: { split_call; discriminate. }
    split_call; discriminate.
Qed.

Lemma Forall_firstn_keep {A : Type} (Q : A -> Prop) (n : nat) (l : list A) :
  Forall Q l -> Forall Q (firstn n l).
Proof.
  revert l. induction n as [|n IH]; intros l H; cbn; [constructor|].
  destruct H; constructor; auto.
Qed.

Lemma Forall_skipn_keep {A : Type} (Q : A -> Prop) (n : nat) (l : list A) :
  Forall Q l -> Forall Q (skipn n l).
Proof.
  revert l. induction n as [|n IH]; intros l H; cbn; [exact H|].
  destruct H; [constructor | auto].
Qed.

Lemma mem_rows_of_fit (w : Mem.db) (k : Mem.result_kind) :
  Forall (fun r => List.length r = List.length (Mem.description_of w k))
    (Mem.rows_of w k).
Proof.
  assert (Ht : Forall (fun r => List.length r = List.length (Mem.m_columns w))
                 (Mem.table_rows w)).
  { unfold Mem.table_rows. apply Forall_forall. intros r Hr.
    apply in_map_iff in Hr as (i & <- & _).
    now rewrite length_map, length_seq. }
  destruct k as [[n|] | | [|]]; cbn.
  - now apply Forall_firstn_keep.
  - exact Ht.
  - now repeat constructor.
  - apply Forall_forall. intros r Hr.
    apply in_map_iff in Hr as ([[[[c0 c1] c2] c3] c4] & <- & _). reflexivity.
  - constructor.
Qed.

Lemma mem_rows_fit_description : rows_fit_description Mem.driver.
Proof.
  intros w w' fetched. cbn. unfold Mem.guarded.
  destruct (Mem.m_fault w "fetchall"); [discriminate|].
  destruct (Mem.cur w) as [|k n|n]; try discriminate.
  intro H. injection H as <- _. unfold desc_columns. rewrite length_map.
  apply Forall_skipn_keep, mem_rows_of_fit.
Qed.

Lemma mem_honours_top_100 : honours_top_100 Mem.driver.
Proof.
  intros sql params w w' w'' fetched Hp. cbn. unfold Mem.guarded.
  destruct (Mem.m_fault w "execute"); [discriminate|].
  intro H. injection H as <-. unfold Mem.run_statement. rewrite Hp.
  cbn -[firstn skipn].
  destruct (Mem.m_fault w "fetchall"); [discriminate|].
  intro H. injection H as <- _. cbn [skipn].
  exact (firstn_le_length 100 (Mem.table_rows w)).
Qed.

(** C5.  The statement of [preview_table] carries the cap [TOP 100], so on a
    database that honours it no response has more than 100 rows; and when
    the steps succeed the response holds the fetched rows, none for an empty
    table, under the column names of the reported description. *)
Theorem preview_table_row_cap :
  forall (W : Type) (drv : Driver W) (env : string -> option string) (t : string),
    (honours_top_100 drv ->
     forall (st st' : state W) (cols : list string) (rws : list (list value)),
       preview_table drv env t st = (Ok (QueryResult cols rws), st') ->
       List.length rws <= 100) /\
    (forall (q : string) (w w1 w2 w3 w4 w5 : W) (fetched : list row),
        validate_table_name t = Ok q ->
        available drv = true ->
        connect drv (conn_str env) w = (Ok tt, w1) ->
        cursor drv w1 = (Ok tt, w2) ->
        execute drv ("SELECT TOP 100 * FROM " ++ q) [] w2 = (Ok tt, w3) ->
        fetchall drv w3 = (Ok fetched, w4) ->
        conn_exit drv None w4 = (Ok tt, w5) ->
        preview_table drv env t (start w)
        = (Ok (QueryResult (desc_columns (description drv w3)) fetched),
           mkState w5
             [EvConnect (conn_str env); EvCursor;
              EvExecute ("SELECT TOP 100 * FROM " ++ q) [];
              EvFetchall; EvExit None] [])).
Proof.
  intros W drv env t. split.
  - intros Hcap st st' cols rws H.
    apply preview_table_inv in H as [[_ ->] | (q & w2 & w3 & w4 & _ & He & Hf & _)].
    + cbn. lia.
    + apply (Hcap ("SELECT TOP 100 * FROM " ++ q) [] w2 w3 w4 rws);
        [reflexivity | exact He | exact Hf].
  - intros q w w1 w2 w3 w4 w5 fetched Hv Hav Hco Hcu Hex Hfe Hxi.
    unfold_handler. rewrite Hv. norm. rewrite Hav.
    step_with Hco. step_with Hcu. step_with Hex. step_with Hfe. step_with Hxi.
    now rewrite columns_of_description.
Qed.

Lemma preview_table_row_cap_witness :
  List.length
    (match fst (preview_table Mem.driver Mem.env "dbo.Users"
                  (start (Mem.users 150 Mem.no_fault))) with
     | Ok (QueryResult _ rws) => rws
     | _ => []
     end) <= 100 /\
  fst (preview_table Mem.driver Mem.env "dbo.Users"
         (start (Mem.users 0 Mem.no_fault)))
  = Ok (QueryResult ["id"; "email"] []).
Proof.
  split.
  - destruct (preview_table Mem.driver Mem.env "dbo.Users"
                (start (Mem.users 150 Mem.no_fault)))
      as [[[ | cols rws | | | | ] | e] st'] eqn:E; cbn [fst List.length]; try lia.
    exact (proj1 (preview_table_row_cap Mem.db Mem.driver Mem.env "dbo.Users")
             mem_honours_top_100 _ _ _ _ E).
  - rewrite (proj2 (preview_table_row_cap Mem.db Mem.driver Mem.env "dbo.Users")
               "[dbo].[Users]" (Mem.users 0 Mem.no_fault) _ _ _ _ _ []
               eq_refl eq_refl eq_refl eq_refl eq_refl eq_refl eq_refl).
    reflexivity.
Defined.

(** C8.  When the driver returns rows that fit the description it reports,
    every row of a result set returned by [preview_table] or by [run_query]
    has as many values as there are column names. *)
Theorem query_result_rows_fit_columns :
  forall (W : Type) (drv : Driver W) (env : string -> option string),
    rows_fit_description drv ->
    (forall (t : string) (st st' : state W) (cols : list string)
            (rws : list (list value)),
        preview_table drv env t st = (Ok (QueryResult cols rws), st') ->
        Forall (fun r => List.length r = List.length cols) rws) /\
    (forall (q : string) (st st' : state W) (cols : list string)
            (rws : list (list value)),
        run_query drv env q st = (Ok (QueryResult cols rws), st') ->
        Forall (fun r => List.length r = List.length cols) rws).
Proof.
  intros W drv env Hfit. split.
  - intros t st st' cols rws H.
    apply preview_table_inv in H
      as [[-> ->] | (q & w2 & w3 & w4 & _ & _ & Hf & ->)]; [constructor|].
    exact (Hfit _ _ _ Hf).
  - intros q st st' cols rws H.
    apply run_query_inv in H as (w3 & w4 & Hf & ->).
    exact (Hfit _ _ _ Hf).
Qed.

Lemma query_result_rows_fit_columns_witness :
  Forall (fun r => List.length r = List.length ["id"; "email"])
    [[VInt 0; VStr "a@b"]; [VInt 1; VStr "a@b"]] /\
  Forall (fun r => List.length r = List.length ["id"; "email"])
    [[VInt 0; VStr "a@b"]].
Proof.
  split.
  - eapply (proj1 (query_result_rows_fit_columns Mem.db Mem.driver Mem.env
                     mem_rows_fit_description)
              "Users" (start (Mem.users 2 Mem.no_fault))).
    reflexivity.
  - eapply (proj2 (query_result_rows_fit_columns Mem.db Mem.driver Mem.env
                     mem_rows_fit_description)
              "SELECT * FROM Users" (start (Mem.users 1 Mem.no_fault))).
    reflexivity.
Defined.

(** ** Row counts and schemas *)

(** C9.  When the counting statement of an accepted table reference has
    run, [get_table_count] answers [row_count: 0] if no row comes back, or a
    row whose first value is NULL; otherwise [row_count] is [int] of that
    value (and the conversion's exception, if it raises, is reported as the
    error). *)
Theorem get_table_count_null_is_zero :
  forall (W : Type) (drv : Driver W) (env : string -> option string)
         (t q : string) (w w1 w2 w3 w4 w5 : W) (fetched : option row),
    validate_table_name t = Ok q ->
    available drv = true ->
    connect drv (conn_str env) w = (Ok tt, w1) ->
    cursor drv w1 = (Ok tt, w2) ->
    execute drv ("SELECT COUNT(*) FROM " ++ q) [] w2 = (Ok tt, w3) ->
    fetchone drv w3 = (Ok fetched, w4) ->
    (forall exc, conn_exit drv exc w4 = (Ok tt, w5)) ->
    fst (get_table_count drv env t (start w))
    = match fetched with
      | None => Ok (TableCount t 0)
      | Some [] => Ok (TableCount t 0)
      | Some (VNone :: _) => Ok (TableCount t 0)
      | Some (v :: _) =>
          match Py.int v with
          | Ok n => Ok (TableCount t n)
          | Raise e => Ok (Error (exc_str e))
          end
      end.
Proof.
  intros W drv env t q w w1 w2 w3 w4 w5 fetched Hv Hav Hco Hcu Hex Hfe Hxi.
  unfold_handler. rewrite Hv. norm. rewrite Hav.
  step_with Hco. step_with Hcu. step_with Hex. step_with Hfe. norm.
  destruct fetched as [[|v rest]|]; cbn [count_of]; norm;
    try (rewrite Hxi; reflexivity).
  destruct v; cbn [Py.is_none negb]; norm;
    try (rewrite Hxi; reflexivity);
    destruct (Py.int _); norm; rewrite Hxi; reflexivity.
Qed.

Lemma get_table_count_null_is_zero_witness :
  fst (get_table_count Mem.driver Mem.env "Users"
         (start (Mem.users 3 Mem.no_fault)))
  = Ok (TableCount "Users" 3) /\
  fst (get_table_count (Mem.canned None [] (-1)) Mem.env "Users" (start tt))
  = Ok (TableCount "Users" 0) /\
  fst (get_table_count (Mem.canned None [[VNone]] (-1)) Mem.env "Users" (start tt))
  = Ok (TableCount "Users" 0).
Proof.
  split; [|split].
  - exact (get_table_count_null_is_zero Mem.db Mem.driver Mem.env
             "Users" "[Users]" (Mem.users 3 Mem.no_fault) _ _ _ _ _
             (Some [VInt 3])
             eq_refl eq_refl eq_refl eq_refl eq_refl eq_refl
             (fun _ => eq_refl)).
  - exact (get_table_count_null_is_zero unit (Mem.canned None [] (-1)) Mem.env
             "Users" "[Users]" tt tt tt tt tt tt None
             eq_refl eq_refl eq_refl eq_refl eq_refl eq_refl
             (fun _ => eq_refl)).
  - exact (get_table_count_null_is_zero unit (Mem.canned None [[VNone]] (-1))
             Mem.env "Users" "[Users]" tt tt tt tt tt tt (Some [VNone])
             eq_refl eq_refl eq_refl eq_refl eq_refl eq_refl
             (fun _ => eq_refl)).
Defined.

Lemma map_result_pointwise {A B : Type} (f : A -> result B) (l : list A)
    (out : list B) :
  map_result f l = Ok out -> Forall2 (fun a b => f a = Ok b) l out.
Proof.
  revert out. induction l as [|a l IH]; cbn; intros out H.
  - injection H as <-. constructor.
  - destruct (f a) as [b|e] eqn:Ha; cbn in H; [|discriminate].
    destruct (map_result f l) as [bs|e]; cbn in H; [|discriminate].
    injection H as <-. constructor; auto.
Qed.

(** C6.  For an accepted table reference [describe_table] sends the fixed
    introspection statement, which filters on a parameter and orders by
    ordinal position, with the last dot-segment of the reference as its one
    parameter; the columns of the response follow the fetched rows one by
    one in their order; and when no row comes back the response is the
    table name with an empty column list. *)
Theorem describe_table_by_unqualified_name :
  forall (W : Type) (drv : Driver W) (env : string -> option string)
         (t q : string) (w w1 w2 w3 w4 w5 : W) (fetched : list row),
    validate_table_name t = Ok q ->
    available drv = true ->
    connect drv (conn_str env) w = (Ok tt, w1) ->
    cursor drv w1 = (Ok tt, w2) ->
    execute drv describe_table_sql [VStr (Str.last_item (Str.split "." t))] w2
    = (Ok tt, w3) ->
    fetchall drv w3 = (Ok fetched, w4) ->
    (forall exc, conn_exit drv exc w4 = (Ok tt, w5)) ->
    fst (describe_table drv env t (start w))
    = match map_result shape_column fetched with
      | Ok cols => Ok (TableSchema t cols)
      | Raise e => Ok (Error (exc_str e))
      end /\
    firstn 4 (calls (snd (describe_table drv env t (start w))))
    = [EvConnect (conn_str env); EvCursor;
       EvExecute describe_table_sql [VStr (Str.last_item (Str.split "." t))];
       EvFetchall] /\
    (forall cols,
        map_result shape_column fetched = Ok cols ->
        Forall2 (fun r c => shape_column r = Ok c) fetched cols) /\
    (fetched = [] ->
     fst (describe_table drv env t (start w)) = Ok (TableSchema t [])) /\
    Str.contains "WHERE TABLE_NAME = ?" describe_table_sql = true /\
    Str.contains "ORDER BY ORDINAL_POSITION" describe_table_sql = true.
Proof.
  intros W drv env t q w w1 w2 w3 w4 w5 fetched Hv Hav Hco Hcu Hex Hfe Hxi.
  assert (Hrun :
    describe_table drv env t (start w)
    = match map_result shape_column fetched with
      | Ok cols =>
          (Ok (TableSchema t cols),
           mkState w5
             [EvConnect (conn_str env); EvCursor;
              EvExecute describe_table_sql
                [VStr (Str.last_item (Str.split "." t))];
              EvFetchall; EvExit None] [])
      | Raise e =>
          (Ok (Error (exc_str e)),
           mkState w5
             [EvConnect (conn_str env); EvCursor;
              EvExecute describe_table_sql
                [VStr (Str.last_item (Str.split "." t))];
              EvFetchall; EvExit (Some e)]
             [LogHandlerError "describe_table" e; LogTraceback e])
      end).
  { unfold_handler. rewrite Hv. norm. rewrite Hav.
    step_with Hco. step_with Hcu. step_with Hex. step_with Hfe. norm.
    destruct (map_result shape_column fetched); norm; rewrite Hxi; reflexivity. }
  rewrite Hrun. repeat apply conj.
  - now destruct (map_result shape_column fetched).
  - now destruct (map_result shape_column fetched).
  - intros cols. apply map_result_pointwise.
  - now intros ->.
  - reflexivity.
  - reflexivity.
Qed.

Lemma describe_table_by_unqualified_name_witness :
  fst (describe_table Mem.driver Mem.env "dbo.Users"
         (start (Mem.users 2 Mem.no_fault)))
  = Ok (TableSchema "dbo.Users"
          [mkColumn "id" "int" false None None;
           mkColumn "email" "nvarchar" true None (Some 255%Z)]) /\
  fst (describe_table Mem.driver Mem.env "dbo.Missing"
         (start (Mem.users 2 Mem.no_fault)))
  = Ok (TableSchema "dbo.Missing" []).
Proof.
  split.
  - exact (proj1 (describe_table_by_unqualified_name Mem.db Mem.driver Mem.env
                    "dbo.Users" "[dbo].[Users]" (Mem.users 2 Mem.no_fault)
                    _ _ _ _ _ _
                    eq_refl eq_refl eq_refl eq_refl eq_refl eq_refl
                    (fun _ => eq_refl))).
  - exact (proj1 (describe_table_by_unqualified_name Mem.db Mem.driver Mem.env
                    "dbo.Missing" "[dbo].[Missing]" (Mem.users 2 Mem.no_fault)
                    _ _ _ _ _ _
                    eq_refl eq_refl eq_refl eq_refl eq_refl eq_refl
                    (fun _ => eq_refl))).
Defined.

(** C10.  In a column of the [describe_table] response a falsy default is
    reported as no default, a falsy maximum length as no maximum length, a
    falsy name or type as the empty string, and the column is nullable
    exactly when the reported flag is truthy and its string form is [YES].
    The empty string and zero are falsy. *)
Theorem shape_column_normalises_falsy :
  forall (c0 c1 c2 c3 c4 : value) (rest : row) (info : column_info),
    shape_column (c0 :: c1 :: c2 :: c3 :: c4 :: rest) = Ok info ->
    (Py.truthy c3 = false -> default info = None) /\
    (Py.truthy c4 = false -> max_length info = None) /\
    (Py.truthy c0 = false -> name info = "") /\
    (Py.truthy c1 = false -> type info = "") /\
    (nullable info = true <->
     Py.truthy c2 = true /\ Py.str c2 = "YES") /\
    Py.truthy (VStr "") = false /\ Py.truthy (VInt 0) = false.
Proof.
  intros c0 c1 c2 c3 c4 rest info. unfold shape_column.
  cbn [row_item nth_error and_then].
  assert (Hn : (if Py.truthy c2 then String.eqb (Py.str c2) "YES" else false) = true
               <-> Py.truthy c2 = true /\ Py.str c2 = "YES").
  { destruct (Py.truthy c2); [rewrite String.eqb_eq; tauto|].
    split; [discriminate | now intros [? _]]. }
  destruct (Py.truthy c4) eqn:H4.
  - destruct (Py.int c4) as [z|e]; cbn [and_then]; [|discriminate].
    intro H. injection H as <-. cbn.
    split; [now intros -> | split; [discriminate | split; [now intros -> |]]].
    split; [now intros -> | split; [exact Hn | now split]].
  - intro H. injection H as <-. cbn.
    split; [now intros -> | split; [reflexivity | split; [now intros -> |]]].
    split; [now intros -> | split; [exact Hn | now split]].
Qed.

Lemma shape_column_normalises_falsy_witness :
  default (mkColumn "" "nvarchar" false None None) = None /\
  max_length (mkColumn "" "nvarchar" false None None) = None /\
  name (mkColumn "" "nvarchar" false None None) = "".
Proof.
  destruct (shape_column_normalises_falsy
              (VStr "") (VStr "nvarchar") (VStr "NO") (VStr "") (VInt 0) []
              (mkColumn "" "nvarchar" false None None) eq_refl)
    as (Hd & Hm & Hn & _).
  exact (conj (Hd eq_refl) (conj (Hm eq_refl) (Hn eq_refl))).
Defined.

(** ** What the validator lets through *)

Arguments word_char : simpl never.
Arguments allowed : simpl never.

Lemma all_chars_app (p : ascii -> bool) (a b : string) :
  Str.all_chars p (a ++ b) = Str.all_chars p a && Str.all_chars p b.
Proof.
  induction a as [|x a IH]; cbn; [reflexivity|].
  now rewrite IH, andb_assoc.
Qed.

Lemma segment_allowed (w : string) :
  Str.all_chars word_char w = true -> Str.all_chars allowed w = true.
Proof.
  induction w as [|a w IH]; cbn; [reflexivity|].
  intro H. apply andb_true_iff in H as [Ha Hw].
  unfold allowed at 1. now rewrite Ha, IH.
Qed.

Lemma at_dollar_allowed (s : string) :
  Re.at_dollar s = true -> Str.all_chars allowed s = true.
Proof.
  destruct s as [|a [|b s]]; cbn; try reflexivity; try discriminate.
  intro H. apply Ascii.eqb_eq in H as ->. reflexivity.
Qed.

Lemma accepted_allowed (s : string) :
  accepted s = true -> Str.all_chars allowed s = true.
Proof.
  unfold accepted, Re.re_match, table_name_re. cbn.
  rewrite Nat.eqb_refl. cbn. intro H.
  apply plus_set_elim in H as (w1 & rest & -> & _ & Hw1 & Hk).
  rewrite all_chars_app, (segment_allowed w1 Hw1). cbn.
  apply orb_true_iff in Hk as [Hk | Hk].
  - destruct rest as [|a t]; [discriminate|].
    apply andb_true_iff in Hk as [Ha Hk]. apply Ascii.eqb_eq in Ha as ->.
    apply plus_set_elim in Hk as (w2 & r2 & -> & _ & Hw2 & Hk2).
    apply andb_true_iff in Hk2 as [Hk2 _].
    cbn. now rewrite all_chars_app, (segment_allowed w2 Hw2), at_dollar_allowed.
  - apply andb_true_iff in Hk as [Hk _]. now apply at_dollar_allowed.
Qed.

Lemma has_char_allowed (c : ascii) (s : string) :
  Str.has_char c s = true -> Str.all_chars allowed s = true -> allowed c = true.
Proof.
  induction s as [|a s IH]; cbn; [discriminate|].
  intros Hc Ha. apply andb_true_iff in Ha as [Ha Hs].
  apply orb_true_iff in Hc as [Hc | Hc]; [|auto].
  apply Ascii.eqb_eq in Hc as <-. exact Ha.
Qed.

Lemma contains_has_char (c : ascii) (rest s : string) :
  Str.contains (String c rest) s = true -> Str.has_char c s = true.
Proof.
  induction s as [|a s IH]; cbn; [discriminate|].
  destruct (Ascii.ascii_dec c a) as [<- | Hn].
  - now rewrite Ascii.eqb_refl.
  - cbn. intro H. rewrite (IH H). apply orb_true_r.
Qed.

(** X5.  A string that holds a forbidden character, or one of the two
    comment openers, does not pass the check. *)
Lemma forbidden_characters_rejected (s : string) :
  (exists c, In c forbidden /\ Str.has_char c s = true) \/
  Str.contains "--" s = true \/ Str.contains "/*" s = true ->
  accepted s = false.
Proof.
  intro H. destruct (accepted s) eqn:Ha; [|reflexivity].
  apply accepted_allowed in Ha.
  assert (Hc : exists c, In c forbidden /\ Str.has_char c s = true).
  { destruct H as [H | [H | H]]; [exact H | |].
    - exists "-"%char. split; [cbn; tauto | now apply contains_has_char in H].
    - exists "/"%char. split; [cbn; tauto | now apply contains_has_char in H]. }
  destruct Hc as (c & Hin & Hc).
  pose proof (has_char_allowed c s Hc Ha) as Hal.
  cbn in Hin.
  repeat (destruct Hin as [<- | Hin]; [cbv in Hal; discriminate Hal|]).
  contradiction.
Qed.

(** X6.  A rejected name stops at the validator: the handler answers with
    its failure response and makes no driver call. *)
Lemma rejected_name_never_reaches_driver {W : Type} (drv : Driver W)
    (env : string -> option string) (t : string) (st : state W) :
  accepted t = false ->
  (fst (preview_table drv env t st) = Ok (QueryResult [] []) /\
   calls (snd (preview_table drv env t st)) = calls st) /\
  (fst (describe_table drv env t st) = Ok (Error ("Invalid table name: " ++ t)) /\
   calls (snd (describe_table drv env t st)) = calls st) /\
  (fst (get_table_count drv env t st) = Ok (Error ("Invalid table name: " ++ t)) /\
   calls (snd (get_table_count drv env t st)) = calls st).
Proof.
  intro H. unfold_handler. unfold validate_table_name.
  unfold accepted in H. rewrite H. cbn. tauto.
Qed.

(** A line feed after an otherwise well-formed name is let through. *)
Lemma trailing_newline_accepted (s : string) :
  spec_pattern s = true ->
  accepted (s ++ String Str.newline "") = true /\
  spec_pattern (s ++ String Str.newline "") = false.
Proof.
  intro Hs. split.
  - unfold accepted.
    apply spec_pattern_shape in Hs as (w1 & Hw1 & [-> | (w2 & Hw2 & ->)]).
    + apply segments_match; auto.
    + rewrite append_assoc. apply segments_match; [exact Hw1|].
      right. right. exists w2, (String Str.newline ""). auto.
  - destruct (spec_pattern (s ++ String Str.newline "")) eqn:E; [|reflexivity].
    apply spec_pattern_shape in E as (w1 & [_ Hw1] & [E | (w2 & [_ Hw2] & E)]).
    + rewrite <- E, all_chars_app in Hw1. cbn in Hw1.
      now rewrite andb_false_r in Hw1.
    + assert (Hall : Str.all_chars (fun a => word_char a || Ascii.eqb a ".")
                       (s ++ String Str.newline "") = true).
      { rewrite E, all_chars_app. cbn.
        assert (Hmono : forall w, Str.all_chars word_char w = true ->
                  Str.all_chars (fun a => word_char a || Ascii.eqb a ".") w = true).
        { induction w as [|a w IH]; cbn; [reflexivity|].
          intro H. apply andb_true_iff in H as [Ha Hw]. now rewrite Ha, IH. }
        now rewrite !Hmono. }
      rewrite all_chars_app in Hall. cbn in Hall.
      now rewrite andb_false_r in Hall.
Qed.

(** C1, at the input where the source departs from it.  The reference
    [Users] followed by a line feed fails the pattern read with [$] as the
    very end of the string, yet [validate_table_name] returns a quoted form
    for it, and [preview_table] sends the statement built from it to the
    driver. *)
Theorem trailing_newline_reaches_driver :
  spec_pattern users_newline = false /\
  validate_table_name users_newline
  = Ok ("[Users" ++ String Str.newline "]") /\
  calls (snd (preview_table Mem.driver Mem.env users_newline
                (start (Mem.users 2 Mem.no_fault))))
  = [EvConnect (conn_str Mem.env); EvCursor;
     EvExecute ("SELECT TOP 100 * FROM [Users" ++ String Str.newline "]") [];
     EvFetchall; EvExit None].
Proof. repeat split. Qed.

(** ** Worked examples *)

Example validate_dbo_users :
  validate_table_name "dbo.Users" = Ok "[dbo].[Users]".
Proof. reflexivity. Qed.

Example validate_injection :
  validate_table_name "Users; DROP TABLE x"
  = Raise (mkExn "ValueError" "Invalid table name: Users; DROP TABLE x").
Proof. reflexivity. Qed.

Example validate_three_segments :
  validate_table_name "db.dbo.Users"
  = Raise (mkExn "ValueError" "Invalid table name: db.dbo.Users").
Proof. reflexivity. Qed.

Example split_quoted_dbo_users :
  split_quoted "[dbo].[Users]" = Some ["dbo"; "Users"].
Proof. reflexivity. Qed.

Example run_query_update :
  run_query Mem.driver Mem.env "UPDATE Users SET email = 'x'"
    (start (Mem.users 2 Mem.no_fault))
  = (Ok (ExecResult "Query executed successfully" 2),
     mkState (Mem.with_cursor (Mem.users 2 Mem.no_fault) (Mem.Affected 2))
       [EvConnect (conn_str Mem.env); EvCursor;
        EvExecute "UPDATE Users SET email = 'x'" []; EvCommit; EvExit None]
       []).
Proof. reflexivity. Qed.

Example list_tables_connection_failure :
  list_tables Mem.driver Mem.env
    (start (Mem.users 2 (Mem.fault_at "connect" (mkExn "OperationalError" "down"))))
  = (Ok (Tables []),
     mkState (Mem.users 2 (Mem.fault_at "connect" (mkExn "OperationalError" "down")))
       [EvConnect (conn_str Mem.env)]
       [LogConnectionError (mkExn "OperationalError" "down");
        LogHandlerError "list_tables" (mkExn "OperationalError" "down");
        LogTraceback (mkExn "OperationalError" "down")]).
Proof. reflexivity. Qed.

Example int_of_padded_string : Py.int (VStr " 1_000 ") = Ok 1000%Z.
Proof. reflexivity. Qed.

Example connection_string_defaults :
  conn_str Mem.env
  = "DRIVER={ODBC Driver 17 for SQL Server};SERVER=None,1433;DATABASE=None;UID=None;PWD=None".
Proof. reflexivity. Qed.

(** * Further properties *)

(** ** The validator, exactly *)

Arguments plain_char : simpl never.

Lemma plain_char_plain (a : ascii) :
  plain_char a = true ->
  Ascii.eqb a "." = false /\ Ascii.eqb a "]" = false /\ Ascii.eqb a "[" = false.
Proof.
  destruct a as [[|] [|] [|] [|] [|] [|] [|] [|]]; cbv; intro H;
    repeat split; solve [reflexivity | discriminate H].
Qed.

Lemma segment_plain (w : string) :
  Str.all_chars word_char w = true -> Str.all_chars plain_char w = true.
Proof.
  induction w as [|a w IH]; cbn; [reflexivity|].
  intro H. apply andb_true_iff in H as [Ha Hw].
  unfold plain_char at 1. now rewrite Ha, IH.
Qed.

(** A piece of an accepted name: not empty, word characters and at most a
    closing line feed. *)
Lemma piece_plain (w nl : string) :
  is_segment w -> nl = "" \/ nl = String Str.newline "" ->
  w ++ nl <> "" /\ Str.all_chars plain_char (w ++ nl) = true.
Proof.
  intros [Hne Hw] Hnl. split.
  - destruct w; [congruence | discriminate].
  - rewrite all_chars_app, (segment_plain w Hw).
    now destruct Hnl as [-> | ->].
Qed.

Lemma segments_anchored (w1 tail : string) :
  is_segment w1 ->
  (tail = "" \/ exists w2, is_segment w2 /\ tail = String "." w2) ->
  spec_pattern (w1 ++ tail) = true.
Proof.
  intros [Hne Hw] Ht. unfold spec_pattern, Re.re_match, table_name_re_anchored.
  cbn. rewrite Nat.eqb_refl. cbn.
  apply plus_set_intro; [exact Hne | exact Hw |].
  destruct Ht as [-> | (w2 & [Hne2 Hw2] & ->)]; [reflexivity|].
  cbn. apply orb_true_iff. left. rewrite <- (append_empty_r w2).
  apply plus_set_intro; [exact Hne2 | exact Hw2 | reflexivity].
Qed.

Lemma at_dollar_cases (s : string) :
  Re.at_dollar s = true -> s = "" \/ s = String Str.newline "".
Proof.
  destruct s as [|a [|b s]]; cbn; try discriminate; [now left|].
  intro H. apply Ascii.eqb_eq in H as ->. now right.
Qed.

(** The shape of every name that passes the check. *)
Lemma accepted_shape (s : string) :
  accepted s = true ->
  exists w1 nl, is_segment w1 /\ (nl = "" \/ nl = String Str.newline "") /\
    (s = w1 ++ nl \/
     exists w2, is_segment w2 /\ s = w1 ++ String "." (w2 ++ nl)).
Proof.
  unfold accepted, Re.re_match, table_name_re. cbn.
  rewrite Nat.eqb_refl. cbn. intro H.
  apply plus_set_elim in H as (w1 & rest & -> & Hne & Hw & Hk).
  apply orb_true_iff in Hk as [Hk | Hk].
  - destruct rest as [|a t]; [discriminate|].
    apply andb_true_iff in Hk as [Ha Hk]. apply Ascii.eqb_eq in Ha as ->.
    apply plus_set_elim in Hk as (w2 & r2 & -> & Hne2 & Hw2 & Hk2).
    apply andb_true_iff in Hk2 as [Hk2 _]. apply at_dollar_cases in Hk2.
    exists w1, r2. split; [now split|]. split; [exact Hk2|].
    right. exists w2. now repeat split.
  - apply andb_true_iff in Hk as [Hk _]. apply at_dollar_cases in Hk.
    exists w1, rest. split; [now split|]. split; [exact Hk|]. now left.
Qed.

(** X1.  The check of [validate_table_name] lets through exactly the names
    of the anchored pattern and those names followed by one line feed. *)
Theorem accepted_exactly (s : string) :
  accepted s = true <->
  (spec_pattern s = true \/
   exists s', s = s' ++ String Str.newline "" /\ spec_pattern s' = true).
Proof.
  split.
  - intro H.
    apply accepted_shape in H
      as (w1 & nl & Hw1 & [-> | ->] & [-> | (w2 & Hw2 & ->)]).
    + left. apply segments_anchored; auto.
    + left. rewrite append_empty_r. apply segments_anchored; eauto.
    + right. exists w1. split; [reflexivity|].
      rewrite <- (append_empty_r w1). apply segments_anchored; auto.
    + right. exists (w1 ++ String "." w2). split.
      * now rewrite append_assoc.
      * apply segments_anchored; eauto.
  - intros [H | (s' & -> & H)].
    + now apply spec_pattern_accepted.
    + now apply trailing_newline_accepted.
Qed.

Lemma replace_plain (w rest : string) :
  Str.all_chars plain_char w = true ->
  Str.replace "." "].[" (w ++ rest) = w ++ Str.replace "." "].[" rest.
Proof.
  induction w as [|a w IH]; cbn; [reflexivity|].
  intro H. apply andb_true_iff in H as [Ha Hw].
  destruct (plain_char_plain a Ha) as (-> & _). now rewrite IH.
Qed.

Lemma split_plain (w rest : string) :
  Str.all_chars plain_char w = true ->
  Str.split "." (w ++ rest) = prepend w (Str.split "." rest).
Proof.
  induction w as [|a w IH]; cbn.
  - intros _. destruct (Str.split "." rest) eqn:E; [|reflexivity].
    now apply split_nonempty in E.
  - intro H. apply andb_true_iff in H as [Ha Hw].
    destruct (plain_char_plain a Ha) as (-> & _). rewrite (IH Hw).
    destruct (Str.split "." rest) eqn:E; [|reflexivity].
    now apply split_nonempty in E.
Qed.

Lemma split_str_plain (w rest : string) :
  Str.all_chars plain_char w = true ->
  Str.split_str_from "].[" 0 (w ++ rest)
  = prepend w (Str.split_str_from "].[" 0 rest).
Proof.
  induction w as [|a w IH].
  - intros _. cbn [append].
    destruct (Str.split_str_from "].[" 0 rest) eqn:E; [|reflexivity].
    now apply split_str_from_nonempty in E.
  - intro H. cbn [Str.all_chars] in H. apply andb_true_iff in H as [Ha Hw].
    destruct (plain_char_plain a Ha) as (_ & Hb & _).
    cbn [append Str.split_str_from prefix].
    destruct (Ascii.ascii_dec "]" a) as [<- | Hn]; [discriminate Hb|].
    rewrite (IH Hw).
    destruct (Str.split_str_from "].[" 0 rest) eqn:E; [|reflexivity].
    now apply split_str_from_nonempty in E.
Qed.

Lemma plain_alone (w : string) :
  Str.all_chars plain_char w = true ->
  Str.replace "." "].[" w = w /\
  Str.split "." w = [w] /\
  Str.split_str_from "].[" 0 w = [w].
Proof.
  intro Hw. rewrite <- (append_empty_r w) at 1 3 5.
  rewrite replace_plain, split_plain, split_str_plain by exact Hw.
  cbn. now rewrite !append_empty_r.
Qed.

Lemma plain_no_bracket (w : string) :
  Str.all_chars plain_char w = true ->
  Str.has_char "]" w = false /\ Str.has_char "[" w = false /\
  Str.has_char "." w = false.
Proof.
  induction w as [|a w IH]; cbn; [auto|].
  intro H. apply andb_true_iff in H as [Ha Hw].
  destruct (plain_char_plain a Ha) as (-> & -> & ->). now apply IH.
Qed.

(** What the validator returns for an accepted name, piece by piece. *)
Lemma quoted_pieces (s q : string) :
  validate_table_name s = Ok q ->
  exists pieces : list string,
    split_quoted q = Some pieces /\
    Str.split "." s = pieces /\
    Forall (fun p => p <> "" /\ Str.all_chars plain_char p = true) pieces /\
    ((exists p1, pieces = [p1] /\ s = p1) \/
     (exists p1 p2, pieces = [p1; p2] /\ s = p1 ++ String "." p2)).
Proof.
  unfold validate_table_name. fold (accepted s).
  destruct (accepted s) eqn:Ha; cbn [negb]; [|discriminate].
  intro H. injection H as <-.
  apply accepted_shape in Ha
    as (w1 & nl & Hw1 & Hnl & [-> | (w2 & Hw2 & ->)]).
  - destruct (piece_plain w1 nl Hw1 Hnl) as [Hne Hp].
    destruct (plain_alone _ Hp) as (-> & -> & Hq).
    exists [w1 ++ nl]. cbn [append split_quoted].
    rewrite chop_close_app. cbn [option_map]. unfold Str.split_str.
    rewrite Hq. split; [reflexivity|]. split; [reflexivity|].
    split; [repeat constructor; auto|]. left. eauto.
  - destruct (piece_plain w1 "" Hw1 (or_introl eq_refl)) as [Hne1 Hp1].
    rewrite append_empty_r in Hne1, Hp1.
    destruct (piece_plain w2 nl Hw2 Hnl) as [Hne2 Hp2].
    destruct (plain_alone _ Hp2) as (Hr & Hd & Hq).
    rewrite replace_plain, split_plain by exact Hp1.
    cbn [Str.replace Ascii.eqb Bool.eqb]. cbn [Str.split Ascii.eqb Bool.eqb].
    rewrite Hr, Hd. exists [w1; w2 ++ nl].
    cbn [append split_quoted]. rewrite chop_close_app. cbn [option_map].
    unfold Str.split_str. rewrite split_str_plain by exact Hp1.
    split.
    + cbn. rewrite Hq. destruct (w2 ++ nl); cbn; now rewrite ?append_empty_r.
    + split; [cbn; now rewrite append_empty_r|].
      split; [repeat constructor; auto|]. right. eauto.
Qed.

(** X2.  Quoting can be undone: cutting the quoted form at its quoting
    boundaries and joining the pieces with dots gives back the name, so two
    different names never get the same quoted form. *)
Theorem quoted_name_round_trip :
  forall s q : string,
    validate_table_name s = Ok q ->
    (exists pieces, split_quoted q = Some pieces /\ String.concat "." pieces = s) /\
    (forall s', validate_table_name s' = Ok q -> s' = s).
Proof.
  assert (Hrt : forall s q, validate_table_name s = Ok q ->
            exists pieces, split_quoted q = Some pieces /\
                           String.concat "." pieces = s).
  { intros s q H.
    apply quoted_pieces in H
      as (pieces & Hq & _ & _ & [(p1 & -> & ->) | (p1 & p2 & -> & ->)]);
      eexists; (split; [exact Hq | reflexivity]). }
  intros s q H. split; [now apply Hrt|].
  intros s' H'.
  destruct (Hrt s q H) as (ps & E & <-).
  destruct (Hrt s' q H') as (ps' & E' & <-).
  congruence.
Qed.

Lemma quoted_name_round_trip_witness :
  (exists pieces,
      split_quoted "[dbo].[Orders]" = Some pieces /\
      String.concat "." pieces = "dbo.Orders") /\
  (forall s', validate_table_name s' = Ok "[dbo].[Orders]" -> s' = "dbo.Orders").
Proof.
  exact (quoted_name_round_trip "dbo.Orders" "[dbo].[Orders]" eq_refl).
Defined.

(** X3.  An accepted name has one or two dot-separated segments, and so has
    its quoted form; no piece is empty or holds a bracket or a dot, so no
    piece can close its own quote.  Names of three parts are rejected. *)
Theorem accepted_names_have_at_most_two_segments :
  forall s q : string,
    validate_table_name s = Ok q ->
    split_quoted q = Some (Str.split "." s) /\
    1 <= List.length (Str.split "." s) <= 2 /\
    Forall (fun p => p <> "" /\ Str.has_char "]" p = false /\
                     Str.has_char "[" p = false /\ Str.has_char "." p = false)
      (Str.split "." s).
Proof.
  intros s q H.
  apply quoted_pieces in H as (pieces & Hq & -> & Hall & Hn).
  split; [exact Hq|]. split.
  - destruct Hn as [(p1 & -> & _) | (p1 & p2 & -> & _)]; cbn; lia.
  - eapply Forall_impl; [|exact Hall].
    intros p [Hne Hp]. split; [exact Hne|]. now apply plain_no_bracket.
Qed.

Lemma accepted_names_have_at_most_two_segments_witness :
  split_quoted "[dbo].[Orders]" = Some (Str.split "." "dbo.Orders") /\
  1 <= List.length (Str.split "." "dbo.Orders") <= 2 /\
  Forall (fun p => p <> "" /\ Str.has_char "]" p = false /\
                   Str.has_char "[" p = false /\ Str.has_char "." p = false)
    (Str.split "." "dbo.Orders").
Proof.
  exact (accepted_names_have_at_most_two_segments
           "dbo.Orders" "[dbo].[Orders]" eq_refl).
Defined.

(** X4.  The quoted form is never itself a valid name: validating the
    result of a validation raises. *)
Theorem quoted_form_is_rejected :
  forall s q : string,
    validate_table_name s = Ok q ->
    validate_table_name q
    = Raise (mkExn "ValueError" ("Invalid table name: " ++ q)).
Proof.
  intros s q H. apply validate_rejects.
  unfold validate_table_name in H.
  destruct (negb (Re.re_match table_name_re s)); [discriminate|].
  injection H as <-.
  destruct (Re.re_match table_name_re _) eqn:E; [|reflexivity].
  apply accepted_allowed in E. cbn in E. discriminate E.
Qed.

Lemma quoted_form_is_rejected_witness :
  validate_table_name "[Users]"
  = Raise (mkExn "ValueError" "Invalid table name: [Users]").
Proof. exact (quoted_form_is_rejected "Users" "[Users]" eq_refl). Defined.

Lemma forbidden_characters_rejected_witness :
  accepted "Users; DROP TABLE x" = false /\ accepted "a--b" = false.
Proof.
  split.
  - apply forbidden_characters_rejected. left. exists ";"%char.
    split; [cbn; tauto | reflexivity].
  - apply forbidden_characters_rejected. right. left. reflexivity.
Defined.

Lemma rejected_name_never_reaches_driver_witness :
  fst (describe_table Mem.driver Mem.env "Users; DROP TABLE x"
         (start (Mem.users 2 Mem.no_fault)))
  = Ok (Error "Invalid table name: Users; DROP TABLE x") /\
  calls (snd (describe_table Mem.driver Mem.env "Users; DROP TABLE x"
                (start (Mem.users 2 Mem.no_fault)))) = [].
Proof.
  exact (proj1 (proj2 (rejected_name_never_reaches_driver Mem.driver Mem.env
                         "Users; DROP TABLE x" (start (Mem.users 2 Mem.no_fault))
                         eq_refl))).
Defined.

(** ** Failures before the first statement *)

(** X7.  Without the driver module every handler answers with its failure
    response, naming the missing package where it reports errors, and makes
    no driver call at all. *)
Theorem missing_driver_is_reported :
  forall (W : Type) (drv : Driver W) (env : string -> option string)
         (st : state W),
    available drv = false ->
    let msg := "pyodbc is not installed. Install it with: pip install pyodbc" in
    (fst (list_tables drv env st) = Ok (Tables []) /\
     calls (snd (list_tables drv env st)) = calls st) /\
    (forall q,
        fst (run_query drv env q st) = Ok (Error msg) /\
        calls (snd (run_query drv env q st)) = calls st) /\
    (forall t, accepted t = true ->
        (fst (preview_table drv env t st) = Ok (QueryResult [] []) /\
         calls (snd (preview_table drv env t st)) = calls st) /\
        (fst (describe_table drv env t st) = Ok (Error msg) /\
         calls (snd (describe_table drv env t st)) = calls st) /\
        (fst (get_table_count drv env t st) = Ok (Error msg) /\
         calls (snd (get_table_count drv env t st)) = calls st)).
Proof.
  intros W drv env st Hav msg. split; [|split].
  - unfold_handler. rewrite Hav. now cbn.
  - intro q. unfold_handler. rewrite Hav. now cbn.
  - intros t Ht. unfold accepted in Ht. unfold_handler.
    unfold validate_table_name. rewrite Ht, Hav. now cbn.
Qed.

Lemma missing_driver_is_reported_witness :
  fst (run_query missing_driver Mem.env "SELECT 1" (start tt))
  = Ok (Error "pyodbc is not installed. Install it with: pip install pyodbc") /\
  calls (snd (run_query missing_driver Mem.env "SELECT 1" (start tt))) = [].
Proof.
  exact (proj1 (proj2 (missing_driver_is_reported unit missing_driver Mem.env
                         (start tt) eq_refl)) "SELECT 1").
Defined.

(** X8.  When the connection attempt raises, the handler makes that one
    attempt and no other call, answers with its failure response carrying
    the driver's message, and the failure is written to the error stream
    by [get_connection] and again by the handler. *)
Theorem connection_failure_is_reported :
  forall (W : Type) (drv : Driver W) (env : string -> option string)
         (w w1 : W) (e : exn),
    available drv = true ->
    connect drv (conn_str env) w = (Raise e, w1) ->
    let failed (label : string) (r : response) :=
      (Ok r,
       mkState w1 [EvConnect (conn_str env)]
         [LogConnectionError e; LogHandlerError label e; LogTraceback e]) in
    list_tables drv env (start w) = failed "list_tables" (Tables []) /\
    (forall q,
        run_query drv env q (start w) = failed "run_query" (Error (exc_str e))) /\
    (forall t, accepted t = true ->
        preview_table drv env t (start w)
        = failed "preview_table" (QueryResult [] []) /\
        describe_table drv env t (start w)
        = failed "describe_table" (Error (exc_str e)) /\
        get_table_count drv env t (start w)
        = failed "get_table_count" (Error (exc_str e))).
Proof.
  intros W drv env w w1 e Hav Hco failed. unfold failed. split; [|split].
  - unfold_handler. rewrite Hav. step_with Hco. reflexivity.
  - intro q. unfold_handler. rewrite Hav. step_with Hco. reflexivity.
  - intros t Ht. unfold accepted in Ht. unfold_handler.
    unfold validate_table_name. rewrite Ht, Hav. cbn [negb].
    step_with Hco. now cbn.
Qed.

Lemma connection_failure_is_reported_witness :
  fst (get_table_count Mem.driver Mem.env "Users"
         (start (Mem.users 2
                   (Mem.fault_at "connect" (mkExn "OperationalError" "login failed")))))
  = Ok (Error "login failed").
Proof.
  pose proof (connection_failure_is_reported Mem.db Mem.driver Mem.env
                (Mem.users 2
                   (Mem.fault_at "connect" (mkExn "OperationalError" "login failed")))
                _ _ eq_refl eq_refl) as H.
  cbv zeta in H. destruct H as (_ & _ & H).
  destruct (H "Users" eq_refl) as (_ & _ & ->). reflexivity.
Defined.

(** ** What the handlers send and in which order *)

Lemma map_result_first_values (fetched : list row) :
  Forall (fun r => r <> []) fetched ->
  map_result (row_item 0) fetched = Ok (map (hd VNone) fetched).
Proof.
  induction 1 as [|r l Hr _ IH]; [reflexivity|].
  cbn [map_result map]. destruct r as [|v r]; [congruence|].
  cbn. now rewrite IH.
Qed.

(** X9.  [list_tables] sends its fixed statement without parameters and
    answers with the first value of every fetched row, one per row and in
    the order fetched; one row without a value turns the whole answer into
    the empty list. *)
Theorem list_tables_first_column :
  forall (W : Type) (drv : Driver W) (env : string -> option string)
         (w w1 w2 w3 w4 w5 : W) (fetched : list row),
    available drv = true ->
    connect drv (conn_str env) w = (Ok tt, w1) ->
    cursor drv w1 = (Ok tt, w2) ->
    execute drv list_tables_sql [] w2 = (Ok tt, w3) ->
    fetchall drv w3 = (Ok fetched, w4) ->
    (forall exc, conn_exit drv exc w4 = (Ok tt, w5)) ->
    firstn 4 (calls (snd (list_tables drv env (start w))))
    = [EvConnect (conn_str env); EvCursor; EvExecute list_tables_sql [];
       EvFetchall] /\
    (Forall (fun r => r <> []) fetched ->
     fst (list_tables drv env (start w)) = Ok (Tables (map (hd VNone) fetched))) /\
    (In [] fetched -> fst (list_tables drv env (start w)) = Ok (Tables [])).
Proof.
  intros W drv env w w1 w2 w3 w4 w5 fetched Hav Hco Hcu Hex Hfe Hxi.
  assert (Hrun : forall r,
            map_result (row_item 0) fetched = r ->
            fst (list_tables drv env (start w))
            = match r with
              | Ok tables => Ok (Tables tables)
              | Raise _ => Ok (Tables [])
              end /\
            firstn 4 (calls (snd (list_tables drv env (start w))))
            = [EvConnect (conn_str env); EvCursor; EvExecute list_tables_sql [];
               EvFetchall]).
  { intros r Hr. unfold_handler. rewrite Hav.
    step_with Hco. step_with Hcu. step_with Hex. step_with Hfe. norm.
    rewrite Hr. destruct r; norm; rewrite Hxi; now cbn. }
  split; [exact (proj2 (Hrun _ eq_refl))|]. split.
  - intro Hall. rewrite (proj1 (Hrun _ eq_refl)).
    now rewrite map_result_first_values.
  - intro Hin. rewrite (proj1 (Hrun _ eq_refl)).
    destruct (map_result (row_item 0) fetched) as [tables|e] eqn:E; [|reflexivity].
    apply map_result_pointwise in E. exfalso.
    clear - E Hin. induction E as [|r b l bs Hr _ IH]; [contradiction|].
    destruct Hin as [-> | Hin]; [discriminate Hr | auto].
Qed.

Lemma list_tables_first_column_witness :
  fst (list_tables (Mem.canned None [[VStr "Users"]; [VStr "Orders"]] (-1))
         Mem.env (start tt))
  = Ok (Tables [VStr "Users"; VStr "Orders"]) /\
  fst (list_tables (Mem.canned None [[VStr "Users"]; []] (-1)) Mem.env (start tt))
  = Ok (Tables []).
Proof.
  split.
  - refine (proj1 (proj2 (list_tables_first_column unit
                            (Mem.canned None [[VStr "Users"]; [VStr "Orders"]] (-1))
                            Mem.env tt tt tt tt tt tt _
                            eq_refl eq_refl eq_refl eq_refl eq_refl
                            (fun _ => eq_refl))) _).
    repeat constructor; discriminate.
  - refine (proj2 (proj2 (list_tables_first_column unit
                            (Mem.canned None [[VStr "Users"]; []] (-1))
                            Mem.env tt tt tt tt tt tt _
                            eq_refl eq_refl eq_refl eq_refl eq_refl
                            (fun _ => eq_refl))) _).
    cbn. tauto.
Defined.

Ltac all_paths := repeat split_call.

Ltac plan_norm :=
  cbn [world calls stderr fst snd negb app until_failure perform succeeded
       filter is_exit].

Ltac plan_paths := repeat (plan_norm; split_call); plan_norm; try reflexivity.

(** X10.  With the driver present, the driver calls a handler makes, the
    exit of the connection scope apart, are exactly the calls of its plan
    in their order, each once, up to and including the first one that
    raises, and all of them when none raises: the connection attempt, the
    cursor, the statement and the fetch.  [list_tables] and
    [describe_table] send a constant text, [describe_table] with the last
    dot-segment as its parameter; [preview_table] and [get_table_count]
    send a text built from the quoted name; [run_query] sends the query as
    it is, and after it fetches when the driver reports a description and
    commits when it reports none.  No other handler commits. *)
Theorem handlers_make_their_planned_calls :
  forall (W : Type) (drv : Driver W) (env : string -> option string) (w : W),
    available drv = true ->
    non_exit (calls (snd (list_tables drv env (start w))))
    = performed drv
        [EvConnect (conn_str env); EvCursor; EvExecute list_tables_sql [];
         EvFetchall] w /\
    (forall t q,
        validate_table_name t = Ok q ->
        non_exit (calls (snd (preview_table drv env t (start w))))
        = performed drv
            [EvConnect (conn_str env); EvCursor;
             EvExecute ("SELECT TOP 100 * FROM " ++ q) []; EvFetchall] w /\
        non_exit (calls (snd (describe_table drv env t (start w))))
        = performed drv
            [EvConnect (conn_str env); EvCursor;
             EvExecute describe_table_sql
               [VStr (Str.last_item (Str.split "." t))];
             EvFetchall] w /\
        non_exit (calls (snd (get_table_count drv env t (start w))))
        = performed drv
            [EvConnect (conn_str env); EvCursor;
             EvExecute ("SELECT COUNT(*) FROM " ++ q) []; EvFetchone] w) /\
    (forall query,
        non_exit (calls (snd (run_query drv env query (start w))))
        = let '(made, all_ok, w3) :=
            until_failure drv
              [EvConnect (conn_str env); EvCursor; EvExecute query []] w in
          if all_ok
          then (made ++
                performed drv
                  [if desc_truthy (description drv w3)
                   then EvFetchall else EvCommit] w3)%list
          else made).
Proof.
  intros W drv env w Hav. unfold performed, non_exit. split; [|split].
  - unfold_handler. rewrite Hav. plan_paths;
      destruct (map_result (row_item 0) _); plan_paths.
  - intros t q Hv. split; [|split]; unfold_handler; rewrite Hv, Hav.
    + plan_paths.
    + plan_paths; destruct (map_result shape_column _); plan_paths.
    + plan_paths; destruct (count_of _); plan_paths.
  - intro query. unfold_handler. rewrite Hav. plan_norm.
    split_call; plan_norm; [|reflexivity].
    split_call; plan_norm; [|plan_paths].
    split_call; plan_norm; [|plan_paths].
    destruct (desc_truthy _); plan_paths.
Qed.

Lemma handlers_make_their_planned_calls_witness :
  non_exit
    (calls (snd (preview_table Mem.driver Mem.env "dbo.Users"
                   (start (Mem.users 2
                             (Mem.fault_at "execute"
                                (mkExn "ProgrammingError" "no such table")))))))
  = [EvConnect (conn_str Mem.env); EvCursor;
     EvExecute "SELECT TOP 100 * FROM [dbo].[Users]" []] /\
  non_exit
    (calls (snd (run_query Mem.driver Mem.env "DELETE FROM Users"
                   (start (Mem.users 2 Mem.no_fault)))))
  = [EvConnect (conn_str Mem.env); EvCursor; EvExecute "DELETE FROM Users" [];
     EvCommit].
Proof.
  pose proof (handlers_make_their_planned_calls Mem.db Mem.driver Mem.env
                (Mem.users 2
                   (Mem.fault_at "execute"
                      (mkExn "ProgrammingError" "no such table")))
                eq_refl) as (_ & H & _).
  destruct (H "dbo.Users" "[dbo].[Users]" eq_refl) as (-> & _).
  pose proof (handlers_make_their_planned_calls Mem.db Mem.driver Mem.env
                (Mem.users 2 Mem.no_fault) eq_refl) as (_ & _ & H').
  rewrite (H' "DELETE FROM Users"). split; reflexivity.
Defined.

Lemma qualified_accepted (schema tbl : string) :
  is_segment schema -> is_segment tbl ->
  accepted (schema ++ String "." tbl) = true /\
  Str.last_item (Str.split "." (schema ++ String "." tbl)) = tbl.
Proof.
  intros Hs Ht. split.
  - apply segments_match; [exact Hs|]. right. right.
    exists tbl, "". rewrite append_empty_r. auto.
  - destruct Hs as [_ Hs]. destruct Ht as [_ Ht].
    rewrite split_segment by exact Hs. cbn [Str.split Ascii.eqb Bool.eqb].
    destruct (segment_alone tbl Ht) as (_ & -> & _). reflexivity.
Qed.

(** X11.  [describe_table] drops the schema qualifier: for the same table
    name under two schemas it makes the same driver calls, with the same
    statement and parameter, and answers with the same columns (or the same
    error); only the echoed [table_name] differs. *)
Theorem describe_table_ignores_schema :
  forall (W : Type) (drv : Driver W) (env : string -> option string)
         (schema1 schema2 tbl : string) (st : state W),
    is_segment schema1 -> is_segment schema2 -> is_segment tbl ->
    let r1 := describe_table drv env (schema1 ++ String "." tbl) st in
    let r2 := describe_table drv env (schema2 ++ String "." tbl) st in
    calls (snd r1) = calls (snd r2) /\
    world (snd r1) = world (snd r2) /\
    schema_answer (fst r1) = schema_answer (fst r2) /\
    schema_answer (fst r1) <> None.
Proof.
  intros W drv env schema1 schema2 tbl st H1 H2 Ht r1 r2.
  destruct (qualified_accepted schema1 tbl H1 Ht) as [Ha1 Hl1].
  destruct (qualified_accepted schema2 tbl H2 Ht) as [Ha2 Hl2].
  subst r1 r2. unfold_handler. unfold validate_table_name.
  unfold accepted in Ha1, Ha2. rewrite Ha1, Ha2, Hl1, Hl2. cbn [negb].
  destruct (available drv); norm; [|now cbn].
  split_call; [|now cbn].
  split_call; [|split_call; now cbn].
  split_call; [|split_call; now cbn].
  split_call; [|split_call; now cbn].
  destruct (map_result shape_column _); norm; split_call; now cbn.
Qed.

Lemma describe_table_ignores_schema_witness :
  schema_answer
    (fst (describe_table Mem.driver Mem.env "dbo.Users"
            (start (Mem.users 2 Mem.no_fault))))
  = schema_answer
      (fst (describe_table Mem.driver Mem.env "sales.Users"
              (start (Mem.users 2 Mem.no_fault)))).
Proof.
  refine (proj1 (proj2 (proj2 (describe_table_ignores_schema Mem.db Mem.driver
                                 Mem.env "dbo" "sales" "Users"
                                 (start (Mem.users 2 Mem.no_fault)) _ _ _))));
    (split; [discriminate | reflexivity]).
Defined.

(** ** Failures on the way out and in shaping *)

(** X12.  An exception raised when the connection scope is left replaces
    the outcome of the body.  After a statement without result set was
    committed, [run_query] then still answers with an error; and when the
    statement itself failed, the message reported is that of the exit, not
    that of the statement. *)
Theorem exit_failure_overrides_outcome :
  forall (W : Type) (drv : Driver W) (env : string -> option string)
         (query : string) (w w1 w2 w3 w5 : W) (e' : exn),
    available drv = true ->
    connect drv (conn_str env) w = (Ok tt, w1) ->
    cursor drv w1 = (Ok tt, w2) ->
    (forall w4,
        execute drv query [] w2 = (Ok tt, w3) ->
        desc_truthy (description drv w3) = false ->
        commit drv w3 = (Ok tt, w4) ->
        conn_exit drv None w4 = (Raise e', w5) ->
        run_query drv env query (start w)
        = (Ok (Error (exc_str e')),
           mkState w5
             [EvConnect (conn_str env); EvCursor; EvExecute query [];
              EvCommit; EvExit None]
             [LogHandlerError "run_query" e'; LogTraceback e'])) /\
    (forall e,
        execute drv query [] w2 = (Raise e, w3) ->
        conn_exit drv (Some e) w3 = (Raise e', w5) ->
        run_query drv env query (start w)
        = (Ok (Error (exc_str e')),
           mkState w5
             [EvConnect (conn_str env); EvCursor; EvExecute query [];
              EvExit (Some e)]
             [LogHandlerError "run_query" e'; LogTraceback e'])).
Proof.
  intros W drv env query w w1 w2 w3 w5 e' Hav Hco Hcu. split.
  - intros w4 Hex Hd Hcm Hxi. unfold_handler. rewrite Hav.
    step_with Hco. step_with Hcu. step_with Hex. step_with Hd.
    step_with Hcm. step_with Hxi. reflexivity.
  - intros e Hex Hxi. unfold_handler. rewrite Hav.
    step_with Hco. step_with Hcu. step_with Hex. step_with Hxi. reflexivity.
Qed.

Lemma exit_failure_overrides_outcome_witness :
  fst (run_query Mem.driver Mem.env "UPDATE Users SET email = 'x'"
         (start (Mem.users 2 (Mem.fault_at "exit" (mkExn "Error" "link lost")))))
  = Ok (Error "link lost") /\
  In EvCommit
    (calls (snd (run_query Mem.driver Mem.env "UPDATE Users SET email = 'x'"
                   (start (Mem.users 2
                             (Mem.fault_at "exit" (mkExn "Error" "link lost"))))))).
Proof.
  pose proof (proj1 (exit_failure_overrides_outcome Mem.db Mem.driver Mem.env
                       "UPDATE Users SET email = 'x'"
                       (Mem.users 2 (Mem.fault_at "exit" (mkExn "Error" "link lost")))
                       _ _ _ _ (mkExn "Error" "link lost")
                       eq_refl eq_refl eq_refl)
                _ eq_refl eq_refl eq_refl eq_refl) as H.
  rewrite H. cbn. tauto.
Defined.

Lemma map_result_fails {A B : Type} (f : A -> result B) (l : list A) (a : A) :
  In a l -> (exists e, f a = Raise e) -> exists e, map_result f l = Raise e.
Proof.
  intros Hin Hf. induction l as [|x l IH]; [contradiction|].
  cbn [map_result]. destruct Hin as [-> | Hin].
  - destruct Hf as [e ->]. now exists e.
  - destruct (f x); cbn [and_then]; [|eauto].
    destruct (IH Hin) as [e ->]. now exists e.
Qed.

(** X13.  A fetched schema row is shaped into a column exactly when it has
    at least five values and its fifth is falsy or converts with [int]; one
    row that is not makes [describe_table] answer with an error instead of
    a partial column list. *)
Theorem describe_table_needs_well_formed_rows :
  (forall r : row,
      (exists info, shape_column r = Ok info) <->
      (exists c0 c1 c2 c3 c4 rest,
          r = c0 :: c1 :: c2 :: c3 :: c4 :: rest /\
          (Py.truthy c4 = false \/ exists z, Py.int c4 = Ok z))) /\
  (forall (W : Type) (drv : Driver W) (env : string -> option string)
          (t q : string) (w w1 w2 w3 w4 w5 : W) (fetched : list row) (bad : row),
      validate_table_name t = Ok q ->
      available drv = true ->
      connect drv (conn_str env) w = (Ok tt, w1) ->
      cursor drv w1 = (Ok tt, w2) ->
      execute drv describe_table_sql [VStr (Str.last_item (Str.split "." t))] w2
      = (Ok tt, w3) ->
      fetchall drv w3 = (Ok fetched, w4) ->
      (forall exc, conn_exit drv exc w4 = (Ok tt, w5)) ->
      In bad fetched ->
      (exists e, shape_column bad = Raise e) ->
      exists m, fst (describe_table drv env t (start w)) = Ok (Error m)).
Proof.
  split.
  - intro r. split.
    + intros [info H].
      destruct r as [|c0 [|c1 [|c2 [|c3 [|c4 rest]]]]]; try discriminate H.
      exists c0, c1, c2, c3, c4, rest. split; [reflexivity|].
      unfold shape_column in H. cbn [row_item nth_error and_then] in H.
      destruct (Py.truthy c4); [|now left].
      right. destruct (Py.int c4) as [z|e]; [eauto | discriminate H].
    + intros (c0 & c1 & c2 & c3 & c4 & rest & -> & Hc).
      unfold shape_column. cbn [row_item nth_error and_then].
      destruct (Py.truthy c4).
      * destruct Hc as [Hc | [z ->]]; [discriminate Hc|]. cbn. eauto.
      * cbn. eauto.
  - intros W drv env t q w w1 w2 w3 w4 w5 fetched bad
           Hv Hav Hco Hcu Hex Hfe Hxi Hin Hbad.
    destruct (map_result_fails shape_column fetched bad Hin Hbad) as [e He].
    exists (exc_str e). unfold_handler. rewrite Hv. norm. rewrite Hav.
    step_with Hco. step_with Hcu. step_with Hex. step_with Hfe. norm.
    rewrite He. norm. rewrite Hxi. reflexivity.
Qed.

Lemma describe_table_needs_well_formed_rows_witness :
  exists m,
    fst (describe_table
           (Mem.canned None
              [[VStr "id"; VStr "int"; VStr "NO"; VNone; VNone];
               [VStr "note"; VStr "text"; VStr "YES"; VNone; VStr "max"]] (-1))
           Mem.env "Users" (start tt))
    = Ok (Error m).
Proof.
  refine (proj2 describe_table_needs_well_formed_rows unit
            (Mem.canned None
               [[VStr "id"; VStr "int"; VStr "NO"; VNone; VNone];
                [VStr "note"; VStr "text"; VStr "YES"; VNone; VStr "max"]] (-1))
            Mem.env "Users" "[Users]" tt tt tt tt tt tt _
            [VStr "note"; VStr "text"; VStr "YES"; VNone; VStr "max"]
            eq_refl eq_refl eq_refl eq_refl eq_refl eq_refl (fun _ => eq_refl)
            _ _).
  - cbn. tauto.
  - eexists. reflexivity.
Defined.

(** ** The error stream *)

Ltac log_leaf :=
  cbn [fst snd stderr app];
  first [ reflexivity
        | exists []; reflexivity
        | eexists [_]; reflexivity ].

(** X14.  A handler is silent when its [try] block returns and reports
    every exception the block raises, under its own name and last in the
    error stream; an empty answer of [list_tables] or [preview_table] can
    thus be told from a failure only there. *)
Theorem failures_are_logged :
  forall (W : Type) (drv : Driver W) (env : string -> option string) (w : W),
    silent_or_logged "list_tables" (list_tables_try drv env)
      (list_tables drv env) w /\
    (forall q,
        silent_or_logged "run_query" (run_query_try drv env q)
          (run_query drv env q) w) /\
    (forall t,
        silent_or_logged "preview_table" (preview_table_try drv env t)
          (preview_table drv env t) w /\
        silent_or_logged "describe_table" (describe_table_try drv env t)
          (describe_table drv env t) w /\
        silent_or_logged "get_table_count" (get_table_count_try drv env t)
          (get_table_count drv env t) w).
Proof.
  intros W drv env w. unfold silent_or_logged. split; [|split].
  - unfold_handler. destruct (available drv); norm; [|log_leaf].
    all_paths; try log_leaf;
      destruct (map_result (row_item 0) _); norm; all_paths; log_leaf.
  - intro q. unfold_handler. destruct (available drv); norm; [|log_leaf].
    split_call; [|log_leaf].
    split_call; [|split_call; log_leaf].
    split_call; [|split_call; log_leaf].
    destruct (desc_truthy _); norm; all_paths; log_leaf.
  - intro t. split; [|split]; unfold_handler;
      (destruct (validate_table_name t) as [q|e]; norm; [|log_leaf]);
      (destruct (available drv); norm; [|log_leaf]).
    + all_paths; log_leaf.
    + all_paths; try log_leaf;
        destruct (map_result shape_column _); norm; all_paths; log_leaf.
    + all_paths; try log_leaf;
        destruct (count_of _); norm; all_paths; log_leaf.
Qed.

(** ** The two scripts *)

(** X15.  Importing [db_conn] fails with a [NameError] when the engine
    cannot be created, the cause being only printed; once the engine exists
    the import succeeds and binds the session factory to it, whether the
    trial connection works or not, and a failed trial prints the failure. *)
Theorem import_needs_only_the_engine :
  forall (E : Type) (sa : DbConn.SqlAlchemy E) (getenv : string -> option string),
    (forall e,
        DbConn.create_engine sa (DbConn.connection_string getenv) 10 = Raise e ->
        DbConn.import sa getenv
        = (["Connection failed: " ++ exc_str e],
           Raise (mkExn "NameError" "name 'engine' is not defined"))) /\
    (forall eng,
        DbConn.create_engine sa (DbConn.connection_string getenv) 10 = Ok eng ->
        snd (DbConn.import sa getenv) = Ok (DbConn.mkNamespace eng eng) /\
        (forall e,
            DbConn.engine_connect sa eng = Raise e ->
            fst (DbConn.import sa getenv) = ["Connection failed: " ++ exc_str e])).
Proof.
  intros E sa getenv. unfold DbConn.import, DbConn.try_connection. split.
  - intros e ->. reflexivity.
  - intros eng ->. split.
    + destruct (DbConn.engine_connect sa eng); [|reflexivity].
      now destruct (DbConn.connection_exit sa eng).
    + intros e ->. reflexivity.
Qed.

Lemma import_needs_only_the_engine_witness :
  DbConn.import
    (DbConn.mkSqlAlchemy unit
       (fun _ _ => Raise (mkExn "ModuleNotFoundError" "No module named 'pyodbc'"))
       (fun _ => Ok tt) (fun _ => Ok tt))
    (fun _ => None)
  = (["Connection failed: No module named 'pyodbc'"],
     Raise (mkExn "NameError" "name 'engine' is not defined")) /\
  snd (DbConn.import
         (DbConn.mkSqlAlchemy unit
            (fun _ _ => Ok tt)
            (fun _ => Raise (mkExn "OperationalError" "timeout")) (fun _ => Ok tt))
         (fun _ => None))
  = Ok (DbConn.mkNamespace tt tt).
Proof.
  split.
  - exact (proj1 (import_needs_only_the_engine unit
                    (DbConn.mkSqlAlchemy unit
                       (fun _ _ =>
                          Raise (mkExn "ModuleNotFoundError" "No module named 'pyodbc'"))
                       (fun _ => Ok tt) (fun _ => Ok tt))
                    (fun _ => None))
             (mkExn "ModuleNotFoundError" "No module named 'pyodbc'") eq_refl).
  - exact (proj1 (proj2 (import_needs_only_the_engine unit
                           (DbConn.mkSqlAlchemy unit
                              (fun _ _ => Ok tt)
                              (fun _ => Raise (mkExn "OperationalError" "timeout"))
                              (fun _ => Ok tt))
                           (fun _ => None)) tt eq_refl)).
Defined.

(** X16.  [setup.py] ends with status 1 exactly when the package
    installation raises, and then never looks for the [.env] file; when the
    installation succeeds it returns and prints that setup is complete,
    also when the [.env] file is missing, which it only mentions. *)
Theorem setup_fails_only_on_install :
  forall os : Setup.Os,
    match Setup.check_call os with
    | Ok _ =>
        snd (Setup.main os) = Setup.Returned /\
        In (String Str.newline "✅ Setup complete!") (fst (Setup.main os)) /\
        (Setup.path_exists os = false ->
         In "⚠️  .env file not found!" (fst (Setup.main os)))
    | Raise e =>
        Setup.main os
        = (["🚀 Setting up MSSQL MCP Server..."; "📦 Installing requirements...";
            "❌ Setup failed: " ++ exc_str e],
           Setup.Exited 1)
    end.
Proof.
  intro os. unfold Setup.main, Setup.install_requirements, Setup.check_env_file.
  destruct (Setup.check_call os) as [u|e]; [|reflexivity].
  destruct (Setup.path_exists os); cbn.
  - split; [reflexivity|]. split; [tauto | discriminate].
  - split; [reflexivity|]. split; tauto.
Qed.
